(** * CoreDNS provider storage backends: a shallow embedding

    Sources embedded here (package [coredns]):
    - the backend selector ([BackendType], [GetBackendType], [NewBackend]);
    - the in-memory backend ([MemoryBackend]);
    - the SQLite backend ([SQLiteBackend]).

    Go strings are byte sequences; they are embedded as [string] (lists of
    8-bit [ascii]).  Go [int] fields are only stored, copied and compared
    with zero, so they are embedded as [Z].  The mutexes only serialise the
    operations; every operation below is one critical section. *)

From Stdlib Require Import ZArith String Ascii List Bool.
From stdpp Require Import base option list gmap strings fin_maps sorting.


(** ** Go library functions used by the sources *)

(** [strings.HasPrefix(s, prefix)]:
    [len(s) >= len(prefix) && s[:len(prefix)] == prefix]. *)
Fixpoint HasPrefix (s prefix : string) {struct prefix} : bool :=
  match prefix with
  | EmptyString => true
  | String c prefix' =>
      match s with
      | EmptyString => false
      | String d s' => if Ascii.eqb d c then HasPrefix s' prefix' else false
      end
  end.

(** The byte-wise lower-casing of Go ([c += 'a' - 'A'] when
    ['A' <= c && c <= 'Z']) and of SQLite ([sqlite3Tolower]). *)
Definition lowerByte (c : ascii) : ascii :=
  let n := N_of_ascii c in
  if ((65 <=? n) && (n <=? 90))%N then ascii_of_N (n + 32) else c.

Fixpoint mapBytes (f : ascii -> ascii) (s : string) : string :=
  match s with
  | EmptyString => EmptyString
  | String c s' => String (f c) (mapBytes f s')
  end.

Fixpoint allBytes (f : ascii -> bool) (s : string) : bool :=
  match s with
  | EmptyString => true
  | String c s' => f c && allBytes f s'
  end.

(** [c < utf8.RuneSelf]. *)
Definition isASCIIByte (c : ascii) : bool := (N_of_ascii c <? 128)%N.

Definition isUpperByte (c : ascii) : bool :=
  let n := N_of_ascii c in ((65 <=? n) && (n <=? 90))%N.

(** [strings.ToLower]: a string of ASCII bytes is returned as it is when it
    has no upper case letter and lower-cased byte by byte otherwise; any
    other string goes through [strings.Map(unicode.ToLower, s)], which is
    the argument [mapRunes] (the Unicode tables are not part of the
    sources). *)
Definition ToLower (mapRunes : string -> string) (s : string) : string :=
  if allBytes isASCIIByte s then
    if allBytes (λ c, negb (isUpperByte c)) s then s
    else mapBytes lowerByte s
  else mapRunes s.

(** A byte of the range [[lo, hi]]. *)
Definition byte_in (lo hi : N) (c : ascii) : bool :=
  ((lo <=? N_of_ascii c) && (N_of_ascii c <=? hi))%N.

(** The bytes after the first one of an encoding of three or four bytes:
    the second byte in [[lo, hi]], the others continuation bytes. *)
Definition utf8_tail (lo hi : N) (more : nat) (s : string) : bool :=
  match s with
  | String b1 s2 =>
      byte_in lo hi b1
      && match more, s2 with
         | O, _ => true
         | S O, String b2 _ => byte_in 128 191 b2
         | S (S _), String b2 (String b3 _) =>
             byte_in 128 191 b2 && byte_in 128 191 b3
         | _, _ => false
         end
  | EmptyString => false
  end.

(** [utf8.DecodeRuneInString]: the number of bytes of the encoding at the
    head of the string, [0] when the head is no valid encoding (the
    decoder then returns [RuneError] and the width 1).  The ranges are
    those of the tables [first] and [acceptRanges] of the package. *)
Definition utf8_size (s : string) : nat :=
  match s with
  | EmptyString => 0
  | String b0 s1 =>
      if byte_in 0 127 b0 then 1
      else if byte_in 194 223 b0 then
        match s1 with
        | String b1 _ => if byte_in 128 191 b1 then 2 else 0
        | EmptyString => 0
        end
      else if byte_in 224 224 b0 then
        if utf8_tail 160 191 1 s1 then 3 else 0
      else if byte_in 225 236 b0 || byte_in 238 239 b0 then
        if utf8_tail 128 191 1 s1 then 3 else 0
      else if byte_in 237 237 b0 then
        if utf8_tail 128 159 1 s1 then 3 else 0
      else if byte_in 240 240 b0 then
        if utf8_tail 144 191 2 s1 then 4 else 0
      else if byte_in 241 243 b0 then
        if utf8_tail 128 191 2 s1 then 4 else 0
      else if byte_in 244 244 b0 then
        if utf8_tail 128 143 2 s1 then 4 else 0
      else 0
  end.

(** The encoding of U+FFFD. *)
Definition replacement_char : string :=
  String (ascii_of_N 239) (String (ascii_of_N 191)
    (String (ascii_of_N 189) EmptyString)).

(** What a Go string becomes through [json.Marshal] and [json.Unmarshal]:
    the encoder writes every byte that starts no valid UTF-8 encoding as
    [\ufffd] and the decoder reads that as U+FFFD; everything else is
    restored.  [skip] counts the bytes left of an encoding that was found
    valid. *)
Fixpoint json_string_from (skip : nat) (s : string) {struct s} : string :=
  match s with
  | EmptyString => EmptyString
  | String b s' =>
      match skip with
      | S k => String b (json_string_from k s')
      | O =>
          match utf8_size s with
          | O => replacement_char +:+ json_string_from 0 s'
          | S k => String b (json_string_from k s')
          end
      end
  end.

Definition json_string (s : string) : string := json_string_from 0 s.

(** [utf8.ValidString]. *)
Fixpoint valid_utf8_from (skip : nat) (s : string) {struct s} : bool :=
  match s with
  | EmptyString => true
  | String b s' =>
      match skip with
      | S k => valid_utf8_from k s'
      | O =>
          match utf8_size s with
          | O => false
          | S k => valid_utf8_from k s'
          end
      end
  end.

Definition valid_utf8 (s : string) : bool := valid_utf8_from 0 s.

(** A string of ASCII bytes other than NUL. *)
Definition ascii_text (s : string) : bool :=
  allBytes (byte_in 1 127) s.

(** ** Errors and contexts *)

(** The error values that flow through the embedded code.  The two context
    errors are [context.Canceled] and [context.DeadlineExceeded]; [OtherError]
    stands for an error produced by the operating system, the SQL engine or
    another constructor. *)
Inductive error : Type :=
  | ErrUnknownBackend
  | Canceled
  | DeadlineExceeded
  | OtherError (msg : string).

#[global] Instance error_eq_dec : EqDecision error.
Proof. solve_decision. Defined.

(** A [context.Context] as the backends observe it: only [ctx.Done()] and
    [ctx.Err()] are used, and the calls are modelled at one instant. *)
Inductive Context : Type :=
  | Background
  | CanceledCtx
  | ExpiredCtx.

Definition ctx_Err (ctx : Context) : option error :=
  match ctx with
  | Background => None
  | CanceledCtx => Some Canceled
  | ExpiredCtx => Some DeadlineExceeded
  end.

(** ** The service record *)

(** Modelled from the spec: the [Service] struct and the [priority] constant
    are declared in a file of the package that is not among the sources; the
    fields are those of the data model (Host, Port, Priority, Weight, Text,
    Mail, TTL, TargetStrip, Group, Key) and the default priority is 10. *)
Record Service : Type := mkService {
  Host : string;
  Port : Z;
  Priority : Z;
  Weight : Z;
  Text : string;
  Mail : bool;
  TTL : Z;
  TargetStrip : Z;
  Group : string;
  Key : string
}.

#[global] Instance Service_eq_dec : EqDecision Service.
Proof. solve_decision. Defined.

Definition priority : Z := 10.

Definition with_Key (k : string) (s : Service) : Service :=
  {| Host := Host s; Port := Port s; Priority := Priority s;
     Weight := Weight s; Text := Text s; Mail := Mail s; TTL := TTL s;
     TargetStrip := TargetStrip s; Group := Group s; Key := k |}.

Definition with_Priority (p : Z) (s : Service) : Service :=
  {| Host := Host s; Port := Port s; Priority := p;
     Weight := Weight s; Text := Text s; Mail := Mail s; TTL := TTL s;
     TargetStrip := TargetStrip s; Group := Group s; Key := Key s |}.

(** The composite literal [Service{Host: .., Port: .., Priority: ..,
    Weight: .., Text: .., Key: key}] of both [GetServices]: the fields that
    are not listed take their zero value. *)
Definition dedupKey (key : string) (svc : Service) : Service :=
  {| Host := Host svc; Port := Port svc; Priority := Priority svc;
     Weight := Weight svc; Text := Text svc; Mail := false; TTL := 0;
     TargetStrip := 0; Group := ""; Key := key |}.

(** [if svc.Priority == 0 { svc.Priority = priority }]. *)
Definition defaultPriority (s : Service) : Service :=
  if (Priority s =? 0)%Z then with_Priority priority s else s.

(** ** Iteration order

    [for k, v := range m] visits every entry of a Go map once, in an order
    the language leaves unspecified; a [SELECT] without [ORDER BY] does the
    same with the rows of a table.  The order is an explicit argument of the
    embedded loops, constrained by [range_of]. *)
Definition range_of {V : Type} (m : gmap string V)
    (order : list (string * V)) : Prop :=
  order ≡ₚ map_to_list m.

(** The state of a [GetServices] loop: the [seen] map (a set of dedup
    identities) and the [services] slice built so far. *)
Record scan_state : Type := mkScan {
  seen : list Service;
  found : list Service
}.

(** ** The in-memory backend *)

Module Memory.

Record MemoryBackend : Type := mkMemoryBackend {
  services : gmap string Service
}.

Definition NewMemoryBackend : MemoryBackend :=
  {| services := ∅ |}.

(** One iteration of [for key, svc := range m.services]. *)
Definition GetServices_body (prefix : string) (st : scan_state)
    (entry : string * Service) : scan_state :=
  let '(key, svc) := entry in
  if negb (HasPrefix key prefix) then st
  else
    let svcCopy := with_Key key svc in
    let dk := dedupKey key svc in
    if bool_decide (dk ∈ seen st) then st
    else
      {| seen := dk :: seen st;
         found := found st ++ [defaultPriority svcCopy] |}.

(** The whole loop, from [seen := make(map[Service]bool)] and the nil
    slice. *)
Definition GetServices_loop (prefix : string)
    (order : list (string * Service)) : list Service :=
  found (foldl (GetServices_body prefix) (mkScan [] []) order).

Definition GetServices (m : MemoryBackend) (order : list (string * Service))
    (ctx : Context) (prefix : string) : list Service * option error :=
  match ctx_Err ctx with
  | Some e => ([], Some e)
  | None => (GetServices_loop prefix order, None)
  end.

(** [GetServices] with the deduplication pass removed (the statements
    on [seen] deleted from the loop). *)
Definition GetServices_nodedup_body (prefix : string) (acc : list Service)
    (entry : string * Service) : list Service :=
  let '(key, svc) := entry in
  if negb (HasPrefix key prefix) then acc
  else acc ++ [defaultPriority (with_Key key svc)].

Definition GetServices_nodedup (m : MemoryBackend)
    (order : list (string * Service)) (ctx : Context) (prefix : string)
    : list Service * option error :=
  match ctx_Err ctx with
  | Some e => ([], Some e)
  | None => (foldl (GetServices_nodedup_body prefix) [] order, None)
  end.

(** [svcCopy := *service; svcCopy.Key = ""; m.services[service.Key] = svcCopy]. *)
Definition SaveService (m : MemoryBackend) (ctx : Context)
    (service : Service) : MemoryBackend * option error :=
  match ctx_Err ctx with
  | Some e => (m, Some e)
  | None =>
      ({| services := <[Key service := with_Key "" service]> (services m) |},
       None)
  end.

(** One iteration of [for k := range m.services]. *)
Definition DeleteService_body (key : string) (sv : gmap string Service)
    (k : string) : gmap string Service :=
  if String.eqb k key || HasPrefix k (key +:+ "/") then delete k sv else sv.

(** The loop deletes only the key it is visiting, so every key of [order]
    is visited. *)
Definition DeleteService (m : MemoryBackend) (order : list (string * Service))
    (ctx : Context) (key : string) : MemoryBackend * option error :=
  match ctx_Err ctx with
  | Some e => (m, Some e)
  | None =>
      ({| services := foldl (DeleteService_body key) (services m) order.*1 |},
       None)
  end.

Definition Count (m : MemoryBackend) : nat := size (services m).

(** [Close] is a no-op. *)
Definition Close (m : MemoryBackend) : MemoryBackend * option error :=
  (m, None).

(** [sort.Strings]: the strings in increasing order of their bytes.  The
    order is total, so the result is the one sorted arrangement of the
    slice, whatever the algorithm. *)
Definition sort_Strings (keys : list string) : list string :=
  merge_sort String.le keys.

(** [Keys]: the keys appended in the order of the enumeration, then
    sorted. *)
Definition Keys (m : MemoryBackend) (order : list (string * Service))
    : list string :=
  let keys := foldl (λ (keys : list string) (k : string), keys ++ [k])
                    [] order.*1 in
  sort_Strings keys.

(** [m.services = make(map[string]Service)]. *)
Definition Clear (m : MemoryBackend) : MemoryBackend :=
  {| services := ∅ |}.

(** [Snapshot]: a new map filled in the order of the enumeration. *)
Definition Snapshot (m : MemoryBackend) (order : list (string * Service))
    : gmap string Service :=
  foldl (λ (snapshot : gmap string Service) (kv : string * Service),
           <[kv.1 := kv.2]> snapshot) ∅ order.

(** A sequence of [SaveService] calls with a live context. *)
Definition save_all (m : MemoryBackend) (l : list Service) : MemoryBackend :=
  foldl (λ m service, (SaveService m Background service).1) m l.

End Memory.

(** ** The SQLite backend *)

Module SQLite.

(** The [value] column holds the text written by [json.Marshal].  A text is
    embedded by what [json.Unmarshal] makes of it: [Document svc] when it
    decodes to [svc], [Malformed raw] when it does not decode. *)
Inductive Value : Type :=
  | Document (svc : Service)
  | Malformed (raw : string).

(** What [json.Unmarshal] reads from the text that [json.Marshal] wrote for
    a record: the numbers and the boolean as they were, the strings as
    [json_string] leaves them.  Modelled from the spec for the part that
    the absent declaration of [Service] decides: the document carries all
    the fields, [Key] included; the [Key] of the decoded record is
    immaterial, [GetServices] overwrites it with the row key. *)
Definition json_roundtrip (service : Service) : Service :=
  {| Host := json_string (Host service); Port := Port service;
     Priority := Priority service; Weight := Weight service;
     Text := json_string (Text service); Mail := Mail service;
     TTL := TTL service; TargetStrip := TargetStrip service;
     Group := json_string (Group service);
     Key := json_string (Key service) |}.

(** Marshalling a [Service] cannot fail. *)
Definition json_Marshal (service : Service) : Value :=
  Document (json_roundtrip service).

Definition json_Unmarshal (v : Value) : option Service :=
  match v with
  | Document svc => Some svc
  | Malformed _ => None
  end.

(** A row of table [services] ([sqliteSchema]); [key] is the primary key,
    so the table is a finite map from keys.  Timestamps are in seconds,
    the resolution of [CURRENT_TIMESTAMP]. *)
Record Row : Type := mkRow {
  value : Value;
  created_at : Z;
  updated_at : Z
}.

Record SQLiteBackend : Type := mkSQLiteBackend {
  rows : gmap string Row;
  path : string
}.

(** SQLite folds the 26 upper case ASCII letters for [LIKE]. *)
Definition sqlite3Tolower (c : ascii) : ascii := lowerByte c.

(** [sqlite3Utf8Trans1]: the value that a lead byte [0xc0..0xff] starts
    a character with. *)
Definition sqlite3Utf8Trans1 (n : N) : N :=
  (if n <? 224 then n - 192
   else if n <? 240 then n - 224
   else if n <? 248 then n - 240
   else if n <? 252 then n - 248
   else if n <? 254 then n - 252
   else 0)%N.

(** The end of [sqlite3Utf8Read] for a character that a lead byte began:
    values under 0x80, surrogates, 0xFFFE and 0xFFFF become 0xFFFD. *)
Definition utf8_finish (c : N) : N :=
  (if (c <? 128) || (N.land c 4294965248 =? 55296)
      || (N.land c 4294967294 =? 65534)
   then 65533 else c)%N.

(** [c = (c<<6) + (0x3f & byte)] on an [unsigned int]. *)
Definition utf8_shift (c byte : N) : N :=
  ((c * 64 + N.land 63 byte) mod 4294967296)%N.

(** The characters that [LIKE] reads from an operand, by [Utf8Read] and
    [sqlite3Utf8Read]: the operand ends at its first NUL; a byte under
    0xc0 is a character; a byte from 0xc0 begins a character that takes in
    every byte [0x80..0xbf] that follows.  [pending] is the character
    begun by a lead byte. *)
Fixpoint sqlite_chars_from (pending : option N) (s : string) {struct s}
    : list N :=
  match s with
  | EmptyString =>
      match pending with Some c => [utf8_finish c] | None => [] end
  | String b s' =>
      let n := N_of_ascii b in
      if (n =? 0)%N then
        match pending with Some c => [utf8_finish c] | None => [] end
      else
        match pending with
        | Some c =>
            if ((128 <=? n) && (n <? 192))%N
            then sqlite_chars_from (Some (utf8_shift c n)) s'
            else
              utf8_finish c
              :: (if (n <? 192)%N then n :: sqlite_chars_from None s'
                  else sqlite_chars_from (Some (sqlite3Utf8Trans1 n)) s')
        | None =>
            if (n <? 192)%N then n :: sqlite_chars_from None s'
            else sqlite_chars_from (Some (sqlite3Utf8Trans1 n)) s'
        end
  end.

Definition sqlite_chars (s : string) : list N := sqlite_chars_from None s.

(** Two characters that [LIKE] takes for equal: the same character, or two
    ASCII letters that differ in case. *)
Definition like_same (c d : N) : bool :=
  ((c =? d)
   || ((c <? 128) && (d <? 128)
       && (N_of_ascii (sqlite3Tolower (ascii_of_N c))
           =? N_of_ascii (sqlite3Tolower (ascii_of_N d)))))%N.

(** [patternCompare] on the characters of the operands, for [LIKE] without
    [ESCAPE] and with the default [case_sensitive_like = OFF]: [%] (37)
    matches any run of characters, [_] (95) any one character.  The
    function of the engine gives up on the first [%] whose continuation
    fails at every place; that changes no result. *)
Fixpoint like_chars (pattern s : list N) {struct pattern} : bool :=
  match pattern with
  | [] => match s with [] => true | _ :: _ => false end
  | c :: pattern' =>
      if (c =? 37)%N then
        (fix any (t : list N) : bool :=
           like_chars pattern' t
           || match t with
              | [] => false
              | _ :: t' => any t'
              end) s
      else
        match s with
        | [] => false
        | d :: s' => (like_same c d || (c =? 95)%N) && like_chars pattern' s'
        end
  end.

(** [s LIKE pattern]. *)
Definition sql_like (pattern s : string) : bool :=
  like_chars (sqlite_chars pattern) (sqlite_chars s).

(** [WHERE key LIKE ? || '%'], the parameter bound to [prefix]. *)
Definition where_GetServices (prefix key : string) : bool :=
  sql_like (prefix +:+ "%") key.

(** [WHERE key = ? OR key LIKE ? || '/%'], both parameters bound to [key]. *)
Definition where_DeleteService (key k : string) : bool :=
  String.eqb k key || sql_like (key +:+ "/%") k.

(** One iteration of [for rows.Next()]. *)
Definition GetServices_body (st : scan_state) (row : string * Row)
    : scan_state :=
  let '(key, r) := row in
  match json_Unmarshal (value r) with
  | None => st
  | Some decoded =>
      let svc := with_Key key decoded in
      let dk := dedupKey key svc in
      if bool_decide (dk ∈ seen st) then st
      else
        {| seen := dk :: seen st;
           found := found st ++ [defaultPriority svc] |}
  end.

(** The whole loop over the rows that the query returned. *)
Definition GetServices_loop (selected : list (string * Row))
    : list Service :=
  found (foldl GetServices_body (mkScan [] []) selected).

(** The candidate records of the selected rows: the rows whose value
    decodes, each with its key. *)
Definition decoded_rows (selected : list (string * Row))
    : list (string * Service) :=
  omap (λ row : string * Row,
          (λ svc, (row.1, svc)) <$> json_Unmarshal (value row.2)) selected.

(** The rows that the [SELECT] returns, in the order of enumeration. *)
Definition select_rows (prefix : string) (order : list (string * Row))
    : list (string * Row) :=
  filter (λ row : string * Row, where_GetServices prefix row.1 = true) order.

(** [QueryContext] and [ExecContext] of [database/sql] report a context
    that is already done before the statement runs; failures of the engine
    itself (input and output, its limits on the length of a text or of a
    [LIKE] pattern) are not modelled.  [order] is the order in which the
    engine enumerates the table. *)
Definition GetServices (s : SQLiteBackend) (order : list (string * Row))
    (ctx : Context) (prefix : string) : list Service * option error :=
  match ctx_Err ctx with
  | Some e => ([], Some e)
  | None => (GetServices_loop (select_rows prefix order), None)
  end.

(** [GetServices] with the deduplication pass removed. *)
Definition GetServices_nodedup_body (acc : list Service)
    (row : string * Row) : list Service :=
  let '(key, r) := row in
  match json_Unmarshal (value r) with
  | None => acc
  | Some decoded => acc ++ [defaultPriority (with_Key key decoded)]
  end.

Definition GetServices_nodedup (s : SQLiteBackend)
    (order : list (string * Row)) (ctx : Context) (prefix : string)
    : list Service * option error :=
  match ctx_Err ctx with
  | Some e => ([], Some e)
  | None =>
      (foldl GetServices_nodedup_body [] (select_rows prefix order), None)
  end.

(** [INSERT .. VALUES (?, ?, CURRENT_TIMESTAMP) ON CONFLICT(key) DO UPDATE
    SET value = excluded.value, updated_at = CURRENT_TIMESTAMP]; [now] is
    the reading of the clock. *)
Definition upsert (now : Z) (key : string) (v : Value)
    (t : gmap string Row) : gmap string Row :=
  match t !! key with
  | Some old =>
      <[key := {| value := v; created_at := created_at old;
                  updated_at := now |}]> t
  | None =>
      <[key := {| value := v; created_at := now; updated_at := now |}]> t
  end.

Definition SaveService (s : SQLiteBackend) (now : Z) (ctx : Context)
    (service : Service) : SQLiteBackend * option error :=
  let value := json_Marshal service in
  match ctx_Err ctx with
  | Some e => (s, Some e)
  | None =>
      ({| rows := upsert now (Key service) value (rows s); path := path s |},
       None)
  end.

Definition DeleteService (s : SQLiteBackend) (ctx : Context) (key : string)
    : SQLiteBackend * option error :=
  match ctx_Err ctx with
  | Some e => (s, Some e)
  | None =>
      ({| rows := filter (λ kv : string * Row,
                            where_DeleteService key kv.1 = false) (rows s);
          path := path s |},
       None)
  end.

Definition Count (s : SQLiteBackend) : nat := size (rows s).

(** [Path]. *)
Definition Path (s : SQLiteBackend) : string := path s.

(** [Count]: [QueryRowContext(ctx, "SELECT COUNT( * ) FROM services")] and
    [Scan(&count)]; when the query fails, [count] keeps its zero value. *)
Definition CountContext (s : SQLiteBackend) (ctx : Context)
    : Z * option error :=
  match ctx_Err ctx with
  | Some e => (0%Z, Some e)
  | None => (Z.of_nat (size (rows s)), None)
  end.

(** [Keys]: [SELECT key FROM services ORDER BY key]; the column has the
    default collation, which compares the bytes of the keys; [keys] is the
    nil slice until a row is appended. *)
Definition Keys (s : SQLiteBackend) (order : list (string * Row))
    (ctx : Context) : list string * option error :=
  match ctx_Err ctx with
  | Some e => ([], Some e)
  | None =>
      (foldl (λ (keys : list string) (key : string), keys ++ [key]) []
             (merge_sort String.le order.*1),
       None)
  end.

(** A sequence of [SaveService] calls with a live context, at the given
    clock readings. *)
Definition save_all (s : SQLiteBackend) (l : list (Z * Service))
    : SQLiteBackend :=
  foldl (λ s ts, (SaveService s ts.1 Background ts.2).1) s l.

(** A string in which [LIKE] finds nothing but literal characters: ASCII
    bytes other than NUL, no wildcard and no upper case letter. *)
Definition like_literal (p : string) : bool :=
  allBytes (λ c, byte_in 1 127 c && negb (isUpperByte c)
                 && negb (Ascii.eqb c "%") && negb (Ascii.eqb c "_")) p.

(** A string without upper case ASCII letters. *)
Definition lower_case (k : string) : bool :=
  allBytes (λ c, negb (isUpperByte c)) k.

(** [key[n:]] *)
Fixpoint slice_from (n : nat) (key : string) : string :=
  match n, key with
  | O, _ => key
  | S n', String _ key' => slice_from n' key'
  | S _, EmptyString => EmptyString
  end.

(** [keyMatchesPrefix], the helper of the file that matches complete path
    components; no statement of the backend calls it. *)
Definition keyMatchesPrefix (key prefix : string) : bool :=
  if negb (HasPrefix key prefix) then false
  else
    let rest := slice_from (String.length prefix) key in
    String.eqb rest "" || HasPrefix rest "/".

End SQLite.

(** ** The backend selector *)

Module Selector.

Definition BackendType : Type := string.

Definition BackendTypeEtcd : BackendType := "etcd".
Definition BackendTypeSQLite : BackendType := "sqlite".
Definition BackendTypeMemory : BackendType := "memory".

(** [Type] is reserved in Rocq: the field is [Type_]. *)
Record BackendConfig : Type := mkBackendConfig {
  Type_ : BackendType;
  SQLitePath : string
}.

(** Modelled from the spec: the etcd client and its constructor
    [newETCDClient] are in a file that is not among the sources; the client
    is the external distributed-store implementation of the contract and is
    kept abstract. *)
Inductive ETCDClient : Type := etcdClient.

(** The dynamic value of a non-nil [Backend] interface.  A [*SQLiteBackend]
    converted to [Backend] keeps its pointer, which can be nil. *)
Inductive BackendValue : Type :=
  | EtcdValue (c : ETCDClient)
  | SQLitePointer (b : option SQLite.SQLiteBackend)
  | MemoryPointer (b : Memory.MemoryBackend).

(** A [Backend] interface value; [None] is the nil interface. *)
Definition Backend : Type := option BackendValue.

(** What the selector takes from outside the package.  A failure is given
    by its message and reaches the caller as [OtherError]. *)
Record Platform : Type := mkPlatform {
  (** [os.Getenv]: the empty string for a variable that is not set. *)
  Getenv : string -> string;
  (** [strings.Map(unicode.ToLower, s)] *)
  mapRunes : string -> string;
  filepath_Dir : string -> string;
  os_MkdirAll : string -> option string;
  (** [sql.Open(driverName, dsn)] *)
  sql_Open : string -> string -> option string;
  (** [db.Exec(sqliteSchema)] on the database opened with a dsn: the rows
      of table [services] once the schema is in place, or a failure. *)
  db_Exec : string -> string -> gmap string SQLite.Row + string;
  newETCDClient : Backend * option string
}.

Definition sqliteSchema : string :=
  "CREATE TABLE IF NOT EXISTS services (key TEXT PRIMARY KEY, value TEXT NOT NULL, created_at DATETIME DEFAULT CURRENT_TIMESTAMP, updated_at DATETIME DEFAULT CURRENT_TIMESTAMP); CREATE INDEX IF NOT EXISTS idx_services_key_prefix ON services(key);".

Definition GetBackendType (p : Platform) : BackendType :=
  let backendStr := ToLower (mapRunes p) (Getenv p "COREDNS_BACKEND") in
  if String.eqb backendStr "sqlite" || String.eqb backendStr "sqlite3"
  then BackendTypeSQLite
  else if String.eqb backendStr "memory" || String.eqb backendStr "mem"
          || String.eqb backendStr "inmemory"
          || String.eqb backendStr "in-memory"
  then BackendTypeMemory
  else if String.eqb backendStr "etcd" || String.eqb backendStr ""
  then BackendTypeEtcd
  else backendStr.

Definition GetBackendConfig (p : Platform) : BackendConfig :=
  {| Type_ := GetBackendType p;
     SQLitePath := Getenv p "COREDNS_SQLITE_PATH" |}.

Definition NewSQLiteBackend (p : Platform) (path : string)
    : option SQLite.SQLiteBackend * option error :=
  let mkdir :=
    if negb (String.eqb path ":memory:")
    then os_MkdirAll p (filepath_Dir p path)
    else None in
  match mkdir with
  | Some msg => (None, Some (OtherError msg))
  | None =>
      let dsn :=
        if negb (String.eqb path ":memory:")
        then path +:+ "?_journal_mode=WAL&_busy_timeout=5000&_synchronous=NORMAL"
        else path in
      match sql_Open p "sqlite" dsn with
      | Some msg => (None, Some (OtherError msg))
      | None =>
          match db_Exec p dsn sqliteSchema with
          | inr msg => (None, Some (OtherError msg))
          | inl table =>
              (Some {| SQLite.rows := table; SQLite.path := path |}, None)
          end
      end
  end.

(** [if cfg == nil { c := GetBackendConfig(); cfg = &c }]; [cfg = None]
    is the nil [*BackendConfig]. *)
Definition effective_config (p : Platform) (cfg : option BackendConfig)
    : BackendConfig :=
  match cfg with
  | None => GetBackendConfig p
  | Some c => c
  end.

Definition NewBackend (p : Platform) (cfg : option BackendConfig)
    : Backend * option error :=
  let cfg := effective_config p cfg in
  if String.eqb (Type_ cfg) BackendTypeEtcd then
    let '(b, err) := newETCDClient p in (b, OtherError <$> err)
  else if String.eqb (Type_ cfg) BackendTypeSQLite then
    let path := if String.eqb (SQLitePath cfg) ""
                then "/var/lib/external-dns/coredns.db"
                else SQLitePath cfg in
    let '(b, err) := NewSQLiteBackend p path in
    (Some (SQLitePointer b), err)
  else if String.eqb (Type_ cfg) BackendTypeMemory then
    (Some (MemoryPointer Memory.NewMemoryBackend), None)
  else (None, Some ErrUnknownBackend).

(** A backend value behind which there is a backend to call. *)
Definition is_instance (b : Backend) : bool :=
  match b with
  | None => false
  | Some (SQLitePointer None) => false
  | Some _ => true
  end.

(** The aliases that [GetBackendType] recognises, the empty string
    apart. *)
Definition recognized_alias (s : string) : bool :=
  bool_decide (s ∈ ["etcd"; "sqlite"; "sqlite3"; "memory"; "mem";
                    "inmemory"; "in-memory"]).

(** The three canonical types. *)
Definition canonical_type (t : BackendType) : bool :=
  bool_decide (t ∈ [BackendTypeEtcd; BackendTypeSQLite; BackendTypeMemory]).

End Selector.

(** ** The in-memory backend with addresses

    [GetServices] returns [[]*Service] and [SaveService] takes a
    [*Service]: to follow what a caller can do through these pointers, every
    [Service] value is placed at a location of one heap, the values held by
    the map [m.services] included (a map slot is a location that no Go
    expression can name). *)

Module Pointers.

Definition loc : Type := positive.

Record world : Type := mkWorld {
  heap : gmap loc Service;
  (** [m.services]: the slot of each key *)
  cells : gmap string loc
}.

(** A variable that escapes is allocated at a location not in use. *)
Definition new (h : gmap loc Service) (v : Service)
    : loc * gmap loc Service :=
  let l := fresh (dom h) in (l, <[l := v]> h).

Record scan_state : Type := mkScan {
  seen : list Service;
  found : list loc;
  mem : gmap loc Service
}.

(** One iteration of the loop of [GetServices]: [svc] is the value read
    from the slot, [svcCopy] a new variable, [&svcCopy] its address. *)
Definition GetServices_body (prefix : string) (st : scan_state)
    (entry : string * loc) : scan_state :=
  let '(key, slot) := entry in
  if negb (HasPrefix key prefix) then st
  else
    match mem st !! slot with
    | None => st
    | Some svc =>
        let svcCopy := with_Key key svc in
        let dk := dedupKey key svc in
        if bool_decide (dk ∈ seen st) then st
        else
          let '(l, h) := new (mem st) (defaultPriority svcCopy) in
          {| seen := dk :: seen st; found := found st ++ [l]; mem := h |}
    end.

Definition GetServices (w : world) (order : list (string * loc))
    (ctx : Context) (prefix : string)
    : list loc * option error * world :=
  match ctx_Err ctx with
  | Some e => ([], Some e, w)
  | None =>
      let st := foldl (GetServices_body prefix) (mkScan [] [] (heap w))
                      order in
      (found st, None, {| heap := mem st; cells := cells w |})
  end.

(** [None] is the panic of dereferencing a pointer that holds no
    [Service]. *)
Definition SaveService (w : world) (ctx : Context) (service : loc)
    : option (option error * world) :=
  match ctx_Err ctx with
  | Some e => Some (Some e, w)
  | None =>
      match heap w !! service with
      | None => None
      | Some v =>
          let svcCopy := with_Key "" v in
          match cells w !! Key v with
          | Some slot =>
              Some (None, {| heap := <[slot := svcCopy]> (heap w);
                             cells := cells w |})
          | None =>
              let '(slot, h) := new (heap w) svcCopy in
              Some (None, {| heap := h;
                             cells := <[Key v := slot]> (cells w) |})
          end
      end
  end.

(** An assignment [*l = v] made by a caller. *)
Definition store (l : loc) (v : Service) (w : world) : world :=
  {| heap := <[l := v]> (heap w); cells := cells w |}.

(** The map [m.services] that a world holds. *)
Definition contents (w : world) : Memory.MemoryBackend :=
  {| Memory.services := omap (λ slot, heap w !! slot) (cells w) |}.

(** The entries of an enumeration of the slots. *)
Definition entries_of (h : gmap loc Service) (order : list (string * loc))
    : list (string * Service) :=
  omap (λ e : string * loc, (λ v, (e.1, v)) <$> h !! e.2) order.

(** Every slot holds a value and no two keys share a slot. *)
Definition wf (w : world) : Prop :=
  (∀ k slot, cells w !! k = Some slot → is_Some (heap w !! slot))
  ∧ (∀ k1 k2 slot, cells w !! k1 = Some slot → cells w !! k2 = Some slot →
       k1 = k2).

(** [l] is the slot of no key. *)
Definition not_a_slot (w : world) (l : loc) : Prop :=
  ∀ k, cells w !! k ≠ Some l.

End Pointers.

(** ** The deduplication policy in the words of the specification *)

(** The composite identity (Host, Port, Priority, Weight, Text, Key) of a
    candidate record. *)
Definition identity (cand : string * Service)
    : string * Z * Z * Z * string * string :=
  (Host cand.2, Port cand.2, Priority cand.2, Weight cand.2, Text cand.2,
   cand.1).

(** Among the candidates of equal identity only the first encountered is
    kept: a candidate is dropped when a candidate met [before] it has its
    identity. *)
Fixpoint first_encountered (before cands : list (string * Service))
    : list (string * Service) :=
  match cands with
  | [] => []
  | c :: rest =>
      if bool_decide (identity c ∈ identity <$> before)
      then first_encountered (before ++ [c]) rest
      else c :: first_encountered (before ++ [c]) rest
  end.

(** What a read presents of a candidate: the key set, the priority
    defaulted. *)
Definition present (cand : string * Service) : Service :=
  defaultPriority (with_Key cand.1 cand.2).

(** ** Saved records *)

(** The backend holds the record as [SaveService service] stored it. *)
Definition Memory_saved (m : Memory.MemoryBackend) (service : Service)
    : Prop :=
  Memory.services m !! Key service = Some (with_Key "" service).

Definition SQLite_saved (s : SQLite.SQLiteBackend) (service : Service)
    : Prop :=
  ∃ row, SQLite.rows s !! Key service = Some row
         ∧ SQLite.value row = SQLite.json_Marshal service.

(** The strings of the record that the JSON document carries and a read
    returns are valid UTF-8, so the document restores them byte for byte. *)
Definition utf8_fields (service : Service) : bool :=
  valid_utf8 (Host service) && valid_utf8 (Text service)
  && valid_utf8 (Group service).

(** What [GetServices] of the SQLite backend presents of a saved record:
    the record that the JSON document restores, under the key of its row,
    the priority defaulted. *)
Definition SQLite_presented (service : Service) : Service :=
  defaultPriority (with_Key (Key service) (SQLite.json_roundtrip service)).

(** The two backends hold the same records: the in-memory record of a key
    is what the row of the key decodes to, with the key cleared as
    [SaveService] of the in-memory backend stores it. *)
Definition backends_agree (m : Memory.MemoryBackend)
    (s : SQLite.SQLiteBackend) : Prop :=
  ∀ k, Memory.services m !! k
       = SQLite.rows s !! k
         ≫= (λ row, with_Key "" <$> SQLite.json_Unmarshal (SQLite.value row)).

(** ** Scenarios *)

Module Scenario.

(** A name with an underscore label, as SRV and TXT records have. *)
Definition tcp_key : string := "/skydns/com/example/_tcp".

Definition sip : Service :=
  {| Host := "10.0.0.1"; Port := 5060; Priority := 0; Weight := 0;
     Text := ""; Mail := false; TTL := 300; TargetStrip := 0; Group := "";
     Key := "/skydns/com/example/_tcp/sip" |}.

Definition web : Service :=
  {| Host := "10.0.0.2"; Port := 0; Priority := 0; Weight := 0;
     Text := ""; Mail := false; TTL := 300; TargetStrip := 0; Group := "";
     Key := "/skydns/com/example/xtcp/web" |}.

Definition memory0 : Memory.MemoryBackend :=
  (Memory.SaveService
     (Memory.SaveService Memory.NewMemoryBackend Background sip).1
     Background web).1.

Definition sqlite0 : SQLite.SQLiteBackend :=
  (SQLite.SaveService
     (SQLite.SaveService {| SQLite.rows := ∅; SQLite.path := ":memory:" |}
        100 Background sip).1
     101 Background web).1.

(** The record [sip] saved a second time under another key. *)
Definition sip_copy : Service :=
  with_Key "/skydns/com/example/_tcp/sip-copy" sip.

(** A world in which [sip] is stored: location 1 holds the record of the
    caller, location 2 is the slot of its key. *)
Definition world0 : Pointers.world :=
  {| Pointers.heap := <[1%positive := sip]> {[ 2%positive := with_Key "" sip ]};
     Pointers.cells := {[ Key sip := 2%positive ]} |}.

(** The table of [sqlite0] with one more row, whose value is no JSON
    document. *)
Definition sqlite_damaged : SQLite.SQLiteBackend :=
  {| SQLite.rows :=
       <["/skydns/com/example/bad" :=
           {| SQLite.value := SQLite.Malformed "{";
              SQLite.created_at := 102; SQLite.updated_at := 102 |}]>
         (SQLite.rows sqlite0);
     SQLite.path := SQLite.path sqlite0 |}.

(** A host on which the data directory cannot be created, with the two
    variables of the selector set to [backend] and [sqlite_path]. *)
Definition readonly_host (backend sqlite_path : string) : Selector.Platform :=
  {| Selector.Getenv := λ name,
       if String.eqb name "COREDNS_BACKEND" then backend
       else if String.eqb name "COREDNS_SQLITE_PATH" then sqlite_path
       else "";
     Selector.mapRunes := λ s, s;
     Selector.filepath_Dir := λ _, "/var/lib/external-dns";
     Selector.os_MkdirAll := λ dir,
       Some ("mkdir " +:+ dir +:+ ": permission denied");
     Selector.sql_Open := λ _ _, None;
     Selector.db_Exec := λ _ _, inl ∅;
     Selector.newETCDClient :=
       (Some (Selector.EtcdValue Selector.etcdClient), None) |}.

End Scenario.

(** * Tactics *)

(** The stored keys of a scenario, one case for each. *)
Ltac stored_key Hk :=
  let v := fresh "v" in
  let E := fresh "E" in
  destruct Hk as [v E]; apply elem_of_map_to_list in E; vm_compute in E;
  repeat (apply elem_of_cons in E as [E|E];
          [injection E as E ?; subst|]);
  [..|by apply elem_of_nil in E].

(** * Properties *)

(** ** Strings *)

Lemma append_nil (t : string) : "" +:+ t = t.
Proof. reflexivity. Qed.

Lemma append_cons (c : ascii) (s t : string) :
  String c s +:+ t = String c (s +:+ t).
Proof. reflexivity. Qed.

Lemma HasPrefix_app (p t : string) : HasPrefix (p +:+ t) p = true.
Proof.
  induction p as [|c p IH]; [done|].
  rewrite append_cons. simpl. by rewrite Ascii.eqb_refl.
Qed.

Lemma HasPrefix_inv (s p : string) :
  HasPrefix s p = true → ∃ t, s = p +:+ t.
Proof.
  revert s; induction p as [|c p IH]; intros s H; simpl in *.
  - by exists s.
  - destruct s as [|d s]; [done|].
    destruct (Ascii.eqb_spec d c) as [->|]; [|done].
    destruct (IH _ H) as [t ->]. by exists t.
Qed.

Lemma HasPrefix_iff (s p : string) :
  HasPrefix s p = true ↔ ∃ t, s = p +:+ t.
Proof.
  split; [apply HasPrefix_inv|]. intros [t ->]. apply HasPrefix_app.
Qed.

Lemma string_app_assoc (a b c : string) : (a +:+ b) +:+ c = a +:+ (b +:+ c).
Proof.
  induction a as [|x a IH]; [done|].
  rewrite !append_cons. f_equal. exact IH.
Qed.

Lemma lowerByte_fixed (c : ascii) :
  lowerByte c = c ↔ isUpperByte c = false.
Proof.
  destruct c as [[] [] [] [] [] [] [] []]; vm_compute; split; congruence.
Qed.

(** ** Records *)

Lemma dedupKey_identity (k k' : string) (s s' : Service) :
  dedupKey k s = dedupKey k' s' ↔ identity (k, s) = identity (k', s').
Proof.
  unfold dedupKey, identity; simpl. split.
  - intros [= -> -> -> -> -> ->]. done.
  - intros [= -> -> -> -> -> ->]. done.
Qed.

Lemma Key_defaultPriority (s : Service) : Key (defaultPriority s) = Key s.
Proof. unfold defaultPriority. by destruct (Priority s =? 0)%Z. Qed.

Lemma Key_present (c : string * Service) : Key (present c) = c.1.
Proof. unfold present. by rewrite Key_defaultPriority. Qed.

Lemma present_fst (l : list (string * Service)) : Key <$> (present <$> l) = l.*1.
Proof.
  rewrite <- list_fmap_compose. apply list_fmap_ext.
  intros i x _. simpl. apply Key_present.
Qed.

Lemma Priority_defaultPriority (s : Service) :
  Priority (defaultPriority s)
  = if (Priority s =? 0)%Z then 10%Z else Priority s.
Proof. unfold defaultPriority. by destruct (Priority s =? 0)%Z. Qed.

Lemma with_Key_with_Key (k k' : string) (s : Service) :
  with_Key k (with_Key k' s) = with_Key k s.
Proof. done. Qed.

Lemma with_Key_Key (s : Service) : with_Key (Key s) s = s.
Proof. by destruct s. Qed.

(** ** Enumerations of a map *)

Lemma range_of_elem {V : Type} (m : gmap string V) order k v :
  range_of m order → ((k, v) ∈ order ↔ m !! k = Some v).
Proof.
  unfold range_of. intros H. rewrite H. apply elem_of_map_to_list.
Qed.

Lemma range_of_NoDup {V : Type} (m : gmap string V) order :
  range_of m order → NoDup order.*1.
Proof.
  unfold range_of. intros H. rewrite H. apply NoDup_fst_map_to_list.
Qed.

Lemma range_of_map_to_list {V : Type} (m : gmap string V) :
  range_of m (map_to_list m).
Proof. unfold range_of. reflexivity. Qed.

(** ** The deduplication pass *)

Lemma first_encountered_NoDup before cands :
  NoDup cands.*1 →
  (∀ c, c ∈ cands → c.1 ∉ before.*1) →
  first_encountered before cands = cands.
Proof.
  revert before; induction cands as [|c cands IH]; intros before Hnd Hb;
    simpl; [done|].
  apply NoDup_cons in Hnd as [Hc Hnd].
  rewrite bool_decide_eq_false_2.
  - f_equal. apply IH; [done|].
    intros c' Hc'. rewrite fmap_app, elem_of_app. intros [Hin|Hin].
    + eapply Hb; [right; exact Hc'|done].
    + apply list_elem_of_singleton in Hin. apply Hc. rewrite <- Hin.
      by apply list_elem_of_fmap_2.
  - intros Hin. apply list_elem_of_fmap in Hin as [b [Hid Hb']].
    apply (Hb c); [left|].
    assert (c.1 = b.1) as -> by (unfold identity in Hid; congruence).
    by apply list_elem_of_fmap_2.
Qed.

Lemma identity_in_dedupKey (c : string * Service)
    (before : list (string * Service)) :
  identity c ∈ identity <$> before
  ↔ dedupKey c.1 c.2 ∈ (λ b : string * Service, dedupKey b.1 b.2) <$> before.
Proof.
  rewrite !list_elem_of_fmap. split; intros [b [Hb Hin]]; exists b; split;
    try done; destruct c, b; by apply dedupKey_identity.
Qed.

Lemma Memory_body_skip prefix st k v :
  HasPrefix k prefix = false →
  Memory.GetServices_body prefix st (k, v) = st.
Proof. intros H. unfold Memory.GetServices_body. by rewrite H. Qed.

Lemma Memory_loop_filter prefix st order :
  foldl (Memory.GetServices_body prefix) st order
  = foldl (Memory.GetServices_body prefix) st
      (filter (λ e : string * Service, HasPrefix e.1 prefix = true) order).
Proof.
  revert st; induction order as [|[k v] order IH]; intros st; [done|].
  rewrite filter_cons. case_decide as Hp; cbn [foldl].
  - apply IH.
  - rewrite Memory_body_skip; [apply IH|].
    simpl in Hp. by destruct (HasPrefix k prefix).
Qed.

Lemma Memory_loop_first prefix cands :
  ∀ (before : list (string * Service)) st,
  Forall (λ e : string * Service, HasPrefix e.1 prefix = true) cands →
  (∀ d, d ∈ seen st
        ↔ d ∈ (λ b : string * Service, dedupKey b.1 b.2) <$> before) →
  found (foldl (Memory.GetServices_body prefix) st cands)
  = found st ++ (present <$> first_encountered before cands).
Proof.
  induction cands as [|[k v] cands IH]; intros before st Hall Hinv; simpl.
  { by rewrite app_nil_r. }
  apply Forall_cons in Hall as [Hk Hall]. simpl in Hk. rewrite Hk. simpl.
  destruct (decide (dedupKey k v ∈ seen st)) as [Hin|Hin].
  - rewrite (bool_decide_eq_true_2 _ Hin).
    rewrite bool_decide_eq_true_2
      by (apply identity_in_dedupKey, Hinv, Hin).
    apply IH; [done|]. intros d. rewrite Hinv, fmap_app, elem_of_app.
    split; [by left|]. intros [?|Hd]; [done|].
    apply list_elem_of_singleton in Hd as ->. by apply Hinv.
  - rewrite (bool_decide_eq_false_2 _ Hin).
    rewrite bool_decide_eq_false_2
      by (intros H; apply Hin, Hinv; by apply (identity_in_dedupKey (k, v))).
    rewrite (IH (before ++ [(k, v)])); [|done|].
    + simpl. by rewrite <- app_assoc.
    + intros d. simpl. rewrite elem_of_cons, Hinv, fmap_app, elem_of_app.
      simpl. rewrite list_elem_of_singleton. tauto.
Qed.

(** The loop of the in-memory [GetServices] on any sequence of entries:
    the candidates are the entries whose key has the prefix, and of the
    candidates of equal identity the first one is presented. *)
Lemma Memory_loop_policy prefix order :
  Memory.GetServices_loop prefix order
  = present <$> first_encountered []
      (filter (λ e : string * Service, HasPrefix e.1 prefix = true) order).
Proof.
  unfold Memory.GetServices_loop. rewrite Memory_loop_filter.
  rewrite (Memory_loop_first prefix _ []); [done| |].
  - apply Forall_forall. intros e He. by apply list_elem_of_filter in He as [? _].
  - intros d. simpl. done.
Qed.

Lemma NoDup_fst_filter {V : Type} (P : string * V → Prop)
    `{!∀ x, Decision (P x)} (l : list (string * V)) :
  NoDup l.*1 → NoDup (filter P l).*1.
Proof.
  induction l as [|x l IH]; [done|]. rewrite fmap_cons, NoDup_cons.
  intros [Hx Hnd]. rewrite filter_cons. case_decide; [|by apply IH].
  rewrite fmap_cons, NoDup_cons. split; [|by apply IH].
  intros Hin. apply Hx. apply list_elem_of_fmap in Hin as [y [-> Hy]].
  apply list_elem_of_filter in Hy as [_ Hy]. by apply list_elem_of_fmap_2.
Qed.

(** On entries with pairwise distinct keys nothing is dropped. *)
Lemma Memory_loop_distinct prefix order :
  NoDup order.*1 →
  Memory.GetServices_loop prefix order
  = present <$>
      filter (λ e : string * Service, HasPrefix e.1 prefix = true) order.
Proof.
  intros Hnd. rewrite Memory_loop_policy. f_equal.
  apply first_encountered_NoDup; [by apply NoDup_fst_filter|].
  intros c _. simpl. apply not_elem_of_nil.
Qed.

(** The order of enumeration permutes the result of a read. *)
Lemma Memory_GetServices_perm m order order' prefix :
  range_of (Memory.services m) order →
  range_of (Memory.services m) order' →
  (Memory.GetServices m order Background prefix).1
  ≡ₚ (Memory.GetServices m order' Background prefix).1.
Proof.
  intros Hr Hr'. unfold Memory.GetServices. simpl.
  rewrite !Memory_loop_distinct by (by eapply range_of_NoDup).
  unfold range_of in *. by rewrite Hr, Hr'.
Qed.

(** ** The in-memory backend *)

Lemma Memory_GetServices_elem m order prefix r :
  range_of (Memory.services m) order →
  r ∈ (Memory.GetServices m order Background prefix).1
  ↔ ∃ k v, Memory.services m !! k = Some v
           ∧ HasPrefix k prefix = true ∧ r = present (k, v).
Proof.
  intros Hr. unfold Memory.GetServices. simpl.
  rewrite Memory_loop_distinct by (by eapply range_of_NoDup).
  rewrite list_elem_of_fmap. split.
  - intros [[k v] [-> Hin]]. apply list_elem_of_filter in Hin as [Hp Hin].
    exists k, v. split; [|done]. by eapply range_of_elem.
  - intros (k & v & Hm & Hp & ->). exists (k, v). split; [done|].
    apply list_elem_of_filter. split; [done|]. by eapply range_of_elem.
Qed.

(** The key test of [DeleteService]. *)
Lemma delete_test_iff (key k : string) :
  String.eqb k key || HasPrefix k (key +:+ "/") = true
  ↔ k = key ∨ ∃ suffix, k = key +:+ "/" +:+ suffix.
Proof.
  rewrite orb_true_iff, String.eqb_eq, HasPrefix_iff.
  split; intros [?|[t Ht]]; auto; right; exists t;
    by rewrite Ht, ?string_app_assoc.
Qed.

Lemma Memory_delete_loop key keys : ∀ (sv : gmap string Service) k,
  foldl (Memory.DeleteService_body key) sv keys !! k
  = if bool_decide (k ∈ keys)
       && (String.eqb k key || HasPrefix k (key +:+ "/"))
    then None else sv !! k.
Proof.
  induction keys as [|k0 keys IH]; intros sv k; cbn [foldl]; [done|].
  rewrite IH. unfold Memory.DeleteService_body.
  destruct (decide (k = k0)) as [->|Hne].
  - rewrite (bool_decide_eq_true_2 (k0 ∈ k0 :: keys)) by left.
    destruct (String.eqb k0 key || HasPrefix k0 (key +:+ "/")) eqn:Ht.
    + rewrite lookup_delete_eq, andb_true_r. simpl. by case_bool_decide.
    + by rewrite !andb_false_r.
  - assert (bool_decide (k ∈ k0 :: keys) = bool_decide (k ∈ keys)) as ->.
    { apply bool_decide_ext. rewrite elem_of_cons. tauto. }
    destruct (String.eqb k0 key || HasPrefix k0 (key +:+ "/")); [|done].
    by rewrite lookup_delete_ne.
Qed.

(** What [DeleteService] leaves in the map, whatever the order of the
    enumeration. *)
Lemma Memory_DeleteService_lookup m order key k :
  range_of (Memory.services m) order →
  Memory.services (Memory.DeleteService m order Background key).1 !! k
  = if String.eqb k key || HasPrefix k (key +:+ "/") then None
    else Memory.services m !! k.
Proof.
  intros Hr. unfold Memory.DeleteService. simpl. rewrite Memory_delete_loop.
  destruct (String.eqb k key || HasPrefix k (key +:+ "/")) eqn:Ht;
    [|by rewrite andb_false_r].
  rewrite andb_true_r. case_bool_decide as Hin; [done|].
  destruct (Memory.services m !! k) as [v|] eqn:Hv; [|done].
  exfalso. apply Hin. apply list_elem_of_fmap. exists (k, v).
  split; [done|]. by eapply range_of_elem.
Qed.

(** [DeleteService] of the in-memory backend removes the record at [key]
    and the records at [key/suffix], and nothing else. *)
Lemma Memory_DeleteService_exact m order key k :
  range_of (Memory.services m) order →
  let m' := (Memory.DeleteService m order Background key).1 in
  ((k = key ∨ ∃ suffix, k = key +:+ "/" +:+ suffix) →
     Memory.services m' !! k = None)
  ∧ (¬ (k = key ∨ ∃ suffix, k = key +:+ "/" +:+ suffix) →
     Memory.services m' !! k = Memory.services m !! k).
Proof.
  intros Hr m'. unfold m'. rewrite Memory_DeleteService_lookup by done.
  destruct (String.eqb k key || HasPrefix k (key +:+ "/")) eqn:Ht.
  - split; [done|]. intros Hn. exfalso. by apply Hn, delete_test_iff.
  - split; [|done]. intros H%delete_test_iff. congruence.
Qed.

(** [GetServices] of the in-memory backend returns the record saved at a
    key exactly when the prefix is a literal prefix of the key. *)
Lemma Memory_GetServices_prefix m order prefix k v :
  range_of (Memory.services m) order →
  Memory.services m !! k = Some v →
  let result := (Memory.GetServices m order Background prefix).1 in
  ((∃ t, k = prefix +:+ t) → present (k, v) ∈ result)
  ∧ (¬ (∃ t, k = prefix +:+ t) → ∀ r, r ∈ result → Key r ≠ k).
Proof.
  intros Hr Hm result. unfold result. split.
  - intros Hp%HasPrefix_iff. apply Memory_GetServices_elem; [done|].
    by exists k, v.
  - intros Hn r Hin%Memory_GetServices_elem; [|done].
    destruct Hin as (k' & v' & _ & Hp & ->). rewrite Key_present. simpl.
    intros ->. by apply Hn, HasPrefix_iff.
Qed.

(** ** The SQLite backend *)

Lemma like_chars_percent (pattern s : list N) :
  SQLite.like_chars (37%N :: pattern) s
  = SQLite.like_chars pattern s
    || match s with
       | [] => false
       | _ :: t => SQLite.like_chars (37%N :: pattern) t
       end.
Proof. destruct s; reflexivity. Qed.

Lemma like_chars_percent_all (s : list N) : SQLite.like_chars [37%N] s = true.
Proof.
  induction s as [|c s IH]; [done|].
  rewrite like_chars_percent, IH. apply orb_true_r.
Qed.

Lemma like_same_refl (c : N) : SQLite.like_same c c = true.
Proof. unfold SQLite.like_same. by rewrite N.eqb_refl. Qed.

(** Every character of a pattern matches itself. *)
Lemma like_chars_prefix (cs rest t : list N) :
  SQLite.like_chars rest t = true →
  SQLite.like_chars (cs ++ rest) (cs ++ t) = true.
Proof.
  intros Hrest. induction cs as [|c cs IH]; [done|].
  rewrite <- !app_comm_cons. destruct (N.eqb_spec c 37) as [->|Hc].
  - rewrite like_chars_percent, like_chars_percent, IH. simpl.
    by rewrite orb_true_r.
  - simpl. apply N.eqb_neq in Hc. rewrite Hc, like_same_refl, IH. done.
Qed.

(** A run of ASCII bytes other than NUL is read byte by byte, whatever
    follows it. *)
Lemma sqlite_chars_ascii_app (p t : string) :
  ascii_text p = true →
  SQLite.sqlite_chars (p +:+ t)
  = (N_of_ascii <$> list_ascii_of_string p) ++ SQLite.sqlite_chars t.
Proof.
  unfold SQLite.sqlite_chars. induction p as [|c p IH]; intros Hp; [done|].
  unfold ascii_text in Hp. simpl in Hp.
  apply andb_true_iff in Hp as [Hc Hp]. unfold byte_in in Hc.
  apply andb_true_iff in Hc as [H1 H2].
  apply N.leb_le in H1, H2.
  rewrite append_cons. cbn [SQLite.sqlite_chars_from list_ascii_of_string].
  destruct (N.eqb_spec (N_of_ascii c) 0) as [E|_]; [lia|].
  destruct (N.ltb_spec (N_of_ascii c) 192) as [_|E]; [|lia].
  rewrite fmap_cons, <- app_comm_cons. f_equal. by apply IH.
Qed.

Lemma sql_like_percent_all (s : string) : SQLite.sql_like "%" s = true.
Proof. unfold SQLite.sql_like. apply like_chars_percent_all. Qed.

(** A key that begins with the literal prefix is matched by
    [prefix || '%'] when the prefix is of ASCII bytes other than NUL: every
    character of a pattern matches itself. *)
Lemma sql_like_literal_prefix (p t rest : string) :
  ascii_text p = true →
  SQLite.sql_like rest t = true →
  SQLite.sql_like (p +:+ rest) (p +:+ t) = true.
Proof.
  intros Hp Hrest. unfold SQLite.sql_like in *.
  rewrite !sqlite_chars_ascii_app by done. by apply like_chars_prefix.
Qed.

Lemma where_GetServices_HasPrefix (prefix key : string) :
  ascii_text prefix = true →
  HasPrefix key prefix = true → SQLite.where_GetServices prefix key = true.
Proof.
  intros Hp [t ->]%HasPrefix_iff. unfold SQLite.where_GetServices.
  apply sql_like_literal_prefix; [done|]. apply sql_like_percent_all.
Qed.

Lemma where_DeleteService_test (key k : string) :
  ascii_text key = true →
  String.eqb k key || HasPrefix k (key +:+ "/") = true →
  SQLite.where_DeleteService key k = true.
Proof.
  unfold SQLite.where_DeleteService.
  intros Hk [->%String.eqb_eq|[t ->]%HasPrefix_iff]%orb_true_iff.
  - by rewrite String.eqb_refl.
  - rewrite string_app_assoc. apply orb_true_iff. right.
    apply sql_like_literal_prefix; [done|].
    apply (sql_like_literal_prefix "/" t "%"); [done|].
    apply sql_like_percent_all.
Qed.

(** ** The JSON documents *)

Lemma json_string_valid (s : string) : ∀ skip,
  valid_utf8_from skip s = true → json_string_from skip s = s.
Proof.
  induction s as [|b s IH]; intros skip Hv; [done|].
  destruct skip as [|k]; cbn [valid_utf8_from json_string_from] in *.
  - destruct (utf8_size (String b s)) as [|k]; [done|].
    f_equal. by apply IH.
  - f_equal. by apply IH.
Qed.

Lemma valid_utf8_ASCII (s : string) :
  allBytes isASCIIByte s = true → valid_utf8 s = true.
Proof.
  unfold valid_utf8. induction s as [|b s IH]; intros Ha; [done|].
  simpl in Ha. apply andb_true_iff in Ha as [Hb Ha].
  cbn [valid_utf8_from].
  assert (utf8_size (String b s) = 1%nat) as ->.
  { unfold utf8_size, byte_in. unfold isASCIIByte in Hb.
    apply N.ltb_lt in Hb.
    assert ((0 <=? N_of_ascii b)%N = true) as -> by (apply N.leb_le; lia).
    assert ((N_of_ascii b <=? 127)%N = true) as -> by (apply N.leb_le; lia).
    done. }
  by apply IH.
Qed.

Lemma HasPrefix_empty (s : string) : HasPrefix s "" = true.
Proof. done. Qed.

(** The loop over the selected rows is the loop of the in-memory backend
    over the decoded rows, with the prefix test already made by the query. *)
Lemma SQLite_loop_decoded selected : ∀ st,
  foldl SQLite.GetServices_body st selected
  = foldl (Memory.GetServices_body "") st (SQLite.decoded_rows selected).
Proof.
  induction selected as [|[k row] selected IH]; intros st; [done|].
  cbn [foldl]. unfold SQLite.decoded_rows. cbn [omap list_omap].
  fold (SQLite.decoded_rows selected). simpl.
  destruct (SQLite.json_Unmarshal (SQLite.value row)) as [svc|]; simpl.
  - rewrite IH. done.
  - apply IH.
Qed.

Lemma filter_true_id {A : Type} (l : list A) :
  filter (λ _ : A, true = true) l = l.
Proof.
  induction l as [|x l IH]; [done|].
  rewrite filter_cons. case_decide; [|done]. by rewrite IH.
Qed.

(** The deduplication policy of the SQLite [GetServices]. *)
Lemma SQLite_loop_policy selected :
  SQLite.GetServices_loop selected
  = present <$> first_encountered [] (SQLite.decoded_rows selected).
Proof.
  unfold SQLite.GetServices_loop. rewrite SQLite_loop_decoded.
  fold (Memory.GetServices_loop "" (SQLite.decoded_rows selected)).
  rewrite Memory_loop_policy. do 2 f_equal. apply filter_true_id.
Qed.

Lemma decoded_rows_elem selected k svc :
  (k, svc) ∈ SQLite.decoded_rows selected
  ↔ ∃ row, (k, row) ∈ selected
           ∧ SQLite.json_Unmarshal (SQLite.value row) = Some svc.
Proof.
  unfold SQLite.decoded_rows. rewrite list_elem_of_omap. split.
  - intros [[k' row] [Hin Hd]]. simpl in Hd.
    destruct (SQLite.json_Unmarshal (SQLite.value row)) eqn:E;
      simplify_eq/=. by exists row.
  - intros [row [Hin Hd]]. exists (k, row). split; [done|]. simpl.
    by rewrite Hd.
Qed.

Lemma decoded_rows_NoDup selected :
  NoDup selected.*1 → NoDup (SQLite.decoded_rows selected).*1.
Proof.
  induction selected as [|[k row] selected IH]; [done|].
  rewrite fmap_cons, NoDup_cons. intros [Hk Hnd].
  unfold SQLite.decoded_rows. cbn [omap list_omap].
  fold (SQLite.decoded_rows selected). simpl.
  destruct (SQLite.json_Unmarshal (SQLite.value row)) as [svc|]; simpl;
    [|by apply IH].
  apply NoDup_cons. split; [|by apply IH].
  intros Hin. apply Hk. apply list_elem_of_fmap in Hin as [[k' svc'] [-> Hin]].
  apply decoded_rows_elem in Hin as [row' [Hin _]].
  apply list_elem_of_fmap. by exists (k', row').
Qed.

Lemma SQLite_loop_distinct selected :
  NoDup selected.*1 →
  SQLite.GetServices_loop selected = present <$> SQLite.decoded_rows selected.
Proof.
  intros Hnd. rewrite SQLite_loop_policy. f_equal.
  apply first_encountered_NoDup; [by apply decoded_rows_NoDup|].
  intros c _. apply not_elem_of_nil.
Qed.

Lemma SQLite_GetServices_elem s order prefix r :
  range_of (SQLite.rows s) order →
  r ∈ (SQLite.GetServices s order Background prefix).1
  ↔ ∃ k row svc, SQLite.rows s !! k = Some row
       ∧ SQLite.json_Unmarshal (SQLite.value row) = Some svc
       ∧ SQLite.where_GetServices prefix k = true
       ∧ r = present (k, svc).
Proof.
  intros Hr. unfold SQLite.GetServices. simpl.
  rewrite SQLite_loop_distinct
    by (apply NoDup_fst_filter; by eapply range_of_NoDup).
  rewrite list_elem_of_fmap. split.
  - intros [[k svc] [-> Hin]]. apply decoded_rows_elem in Hin as [row [Hin Hd]].
    apply list_elem_of_filter in Hin as [Hp Hin]. exists k, row, svc.
    split; [by eapply range_of_elem|done].
  - intros (k & row & svc & Hm & Hd & Hp & ->). exists (k, svc).
    split; [done|]. apply decoded_rows_elem. exists row. split; [|done].
    apply list_elem_of_filter. split; [done|]. by eapply range_of_elem.
Qed.

Lemma SQLite_GetServices_NoDup s order prefix :
  range_of (SQLite.rows s) order →
  NoDup (SQLite.GetServices s order Background prefix).1.
Proof.
  intros Hr. unfold SQLite.GetServices. simpl.
  rewrite SQLite_loop_distinct
    by (apply NoDup_fst_filter; by eapply range_of_NoDup).
  apply (NoDup_fmap_1 Key). rewrite present_fst.
  apply decoded_rows_NoDup, NoDup_fst_filter. by eapply range_of_NoDup.
Qed.

Lemma SQLite_DeleteService_lookup s key k :
  SQLite.rows (SQLite.DeleteService s Background key).1 !! k
  = if SQLite.where_DeleteService key k then None else SQLite.rows s !! k.
Proof.
  unfold SQLite.DeleteService. simpl.
  destruct (SQLite.where_DeleteService key k) eqn:Hw.
  - apply map_lookup_filter_None. right. intros row _. simpl. congruence.
  - destruct (SQLite.rows s !! k) as [row|] eqn:Hk.
    + apply map_lookup_filter_Some. done.
    + apply map_lookup_filter_None. by left.
Qed.

Lemma upsert_lookup_eq now key v (t : gmap string SQLite.Row) :
  ∃ row, SQLite.upsert now key v t !! key = Some row
         ∧ SQLite.value row = v ∧ SQLite.updated_at row = now
         ∧ SQLite.created_at row
           = match t !! key with
             | Some old => SQLite.created_at old
             | None => now
             end.
Proof.
  unfold SQLite.upsert. destruct (t !! key) as [old|] eqn:Hk;
    eexists; rewrite lookup_insert_eq; done.
Qed.

Lemma upsert_lookup_ne now key v (t : gmap string SQLite.Row) k :
  k ≠ key → SQLite.upsert now key v t !! k = t !! k.
Proof.
  intros Hne. unfold SQLite.upsert.
  destruct (t !! key); by rewrite lookup_insert_ne.
Qed.

Lemma Memory_SaveService_saved m service :
  Memory_saved (Memory.SaveService m Background service).1 service.
Proof. unfold Memory_saved. simpl. apply lookup_insert_eq. Qed.

Lemma SQLite_SaveService_saved s now service :
  SQLite_saved (SQLite.SaveService s now Background service).1 service.
Proof.
  unfold SQLite_saved. simpl.
  destruct (upsert_lookup_eq now (Key service)
              (SQLite.json_Marshal service) (SQLite.rows s))
    as (row & Hrow & Hv & _).
  by exists row.
Qed.

Lemma present_saved (service : Service) :
  present (Key service, with_Key "" service) = defaultPriority service.
Proof. unfold present. simpl. by rewrite with_Key_with_Key, with_Key_Key. Qed.

Lemma present_document (service : Service) :
  present (Key service, service) = defaultPriority service.
Proof. unfold present. simpl. by rewrite with_Key_Key. Qed.

(** A read presents a saved record with all its fields, the priority
    defaulted. *)
Lemma Memory_read_back m order prefix service r :
  Memory_saved m service →
  range_of (Memory.services m) order →
  r ∈ (Memory.GetServices m order Background prefix).1 →
  Key r = Key service →
  r = defaultPriority service.
Proof.
  intros Hs Hr Hin Hk. apply Memory_GetServices_elem in Hin; [|done].
  destruct Hin as (k & v & Hm & _ & ->). rewrite Key_present in Hk.
  simpl in Hk. subst k. unfold Memory_saved in Hs. rewrite Hs in Hm.
  injection Hm as <-. apply present_saved.
Qed.

(** The JSON document restores a record whose strings are valid UTF-8. *)
Lemma SQLite_presented_valid (service : Service) :
  utf8_fields service = true →
  SQLite_presented service = defaultPriority service.
Proof.
  unfold utf8_fields. intros [[Hh Ht]%andb_true_iff Hg]%andb_true_iff.
  unfold SQLite_presented, SQLite.json_roundtrip, with_Key, json_string.
  simpl. rewrite !json_string_valid by done. by destruct service.
Qed.

Lemma json_roundtrip_key_cleared (service : Service) :
  utf8_fields service = true →
  with_Key "" service = with_Key "" (SQLite.json_roundtrip service).
Proof.
  unfold utf8_fields. intros [[Hh Ht]%andb_true_iff Hg]%andb_true_iff.
  unfold SQLite.json_roundtrip, with_Key, json_string.
  simpl. by rewrite !json_string_valid by done.
Qed.

Lemma Key_SQLite_presented (service : Service) :
  Key (SQLite_presented service) = Key service.
Proof. unfold SQLite_presented. by rewrite Key_defaultPriority. Qed.

Lemma Priority_SQLite_presented (service : Service) :
  Priority (SQLite_presented service) = Priority (defaultPriority service).
Proof. unfold SQLite_presented, defaultPriority. simpl. by case_match. Qed.

Lemma SQLite_read_back s order prefix service r :
  SQLite_saved s service →
  range_of (SQLite.rows s) order →
  r ∈ (SQLite.GetServices s order Background prefix).1 →
  Key r = Key service →
  r = SQLite_presented service.
Proof.
  intros (row & Hrow & Hv) Hr Hin Hk.
  apply SQLite_GetServices_elem in Hin; [|done].
  destruct Hin as (k & row' & svc & Hm & Hd & _ & ->).
  rewrite Key_present in Hk. simpl in Hk. subst k. rewrite Hrow in Hm.
  injection Hm as <-. rewrite Hv in Hd. injection Hd as <-.
  done.
Qed.

Lemma Memory_read_present m order prefix service :
  Memory_saved m service →
  range_of (Memory.services m) order →
  HasPrefix (Key service) prefix = true →
  defaultPriority service
  ∈ (Memory.GetServices m order Background prefix).1.
Proof.
  intros Hs Hr Hp. apply Memory_GetServices_elem; [done|].
  exists (Key service), (with_Key "" service).
  by rewrite present_saved.
Qed.

Lemma SQLite_read_present s order prefix service :
  SQLite_saved s service →
  range_of (SQLite.rows s) order →
  ascii_text prefix = true →
  HasPrefix (Key service) prefix = true →
  SQLite_presented service
  ∈ (SQLite.GetServices s order Background prefix).1.
Proof.
  intros (row & Hrow & Hv) Hr Ha Hp. apply SQLite_GetServices_elem; [done|].
  exists (Key service), row, (SQLite.json_roundtrip service). rewrite Hv.
  split_and!; try done. by apply where_GetServices_HasPrefix.
Qed.

(** [DeleteService] of the SQLite backend removes a row exactly when the
    [WHERE] clause holds of its key, and the clause holds of the key and of
    the keys under it. *)
Lemma SQLite_DeleteService_subtree s key k :
  ascii_text key = true →
  (k = key ∨ ∃ suffix, k = key +:+ "/" +:+ suffix) →
  SQLite.rows (SQLite.DeleteService s Background key).1 !! k = None.
Proof.
  intros Ha H%delete_test_iff. rewrite SQLite_DeleteService_lookup.
  by rewrite where_DeleteService_test.
Qed.

Lemma SQLite_DeleteService_key s key :
  SQLite.rows (SQLite.DeleteService s Background key).1 !! key = None.
Proof.
  rewrite SQLite_DeleteService_lookup. unfold SQLite.where_DeleteService.
  by rewrite String.eqb_refl.
Qed.

(** [LIKE] matches ASCII letters in either case. *)
Example like_folds_case :
  SQLite.where_GetServices "/SKYDNS/Com" "/skydns/com/example/www" = true
  ∧ HasPrefix "/skydns/com/example/www" "/SKYDNS/Com" = false.
Proof. split; reflexivity. Qed.

(** [LIKE] reads characters, not bytes: [_] matches the two bytes of one
    character, and a prefix that ends inside a character does not match the
    keys that begin with its bytes. *)
Example like_reads_characters :
  let e_acute := String (ascii_of_N 195) (String (ascii_of_N 169) "") in
  let cut := String "a" (String (ascii_of_N 195) "") in
  SQLite.sql_like "a_b" ("a" +:+ e_acute +:+ "b") = true
  ∧ HasPrefix ("a" +:+ e_acute) cut = true
  ∧ SQLite.where_GetServices cut ("a" +:+ e_acute) = false.
Proof. vm_compute. done. Qed.

(** An operand of [LIKE] ends at its first NUL. *)
Example like_stops_at_NUL :
  let prefix := String "a" (String (ascii_of_N 0) "b") in
  let key := String "a" (String (ascii_of_N 0) "c") in
  HasPrefix key prefix = false
  ∧ SQLite.where_GetServices prefix key = true
  ∧ SQLite.where_GetServices prefix "ab" = false.
Proof. vm_compute. done. Qed.

(** The JSON document keeps valid UTF-8 and replaces any other byte by
    U+FFFD. *)
Example json_replaces_invalid_bytes :
  let e_acute := String (ascii_of_N 195) (String (ascii_of_N 169) "") in
  json_string e_acute = e_acute
  ∧ json_string (String "a" (String (ascii_of_N 255) "b"))
    = "a" +:+ replacement_char +:+ "b".
Proof. vm_compute. done. Qed.

(** ** Literal matching in the SQLite backend *)

Lemma allBytes_app (f : ascii → bool) (a b : string) :
  allBytes f (a +:+ b) = allBytes f a && allBytes f b.
Proof.
  induction a as [|c a IH]; [done|].
  rewrite append_cons. simpl. by rewrite IH, andb_assoc.
Qed.

Lemma allBytes_impl (f g : ascii → bool) (s : string) :
  (∀ c, f c = true → g c = true) →
  allBytes f s = true → allBytes g s = true.
Proof.
  intros Hfg. induction s as [|c s IH]; [done|]. simpl.
  intros [Hc Hs]%andb_true_iff. by rewrite (Hfg c Hc), IH.
Qed.

Lemma like_literal_ascii_text (p : string) :
  SQLite.like_literal p = true → ascii_text p = true.
Proof.
  apply allBytes_impl. intros c H.
  by apply andb_true_iff in H as [[[H _]%andb_true_iff _]%andb_true_iff _].
Qed.

Lemma utf8_finish_ge (c : N) : (128 <= SQLite.utf8_finish c)%N.
Proof.
  unfold SQLite.utf8_finish. destruct (N.ltb_spec c 128); simpl; [lia|].
  destruct (_ || _); lia.
Qed.

(** A character that a lead byte begins is no ASCII character. *)
Lemma sqlite_chars_pending (s : string) : ∀ c,
  ∃ x rest, SQLite.sqlite_chars_from (Some c) s = x :: rest ∧ (128 <= x)%N.
Proof.
  induction s as [|b s IH]; intros c; cbn [SQLite.sqlite_chars_from].
  - eexists _, _. split; [done|]. apply utf8_finish_ge.
  - destruct (N_of_ascii b =? 0)%N.
    + eexists _, _. split; [done|]. apply utf8_finish_ge.
    + destruct (_ && _).
      * apply IH.
      * eexists _, _. split; [done|]. apply utf8_finish_ge.
Qed.

Lemma Ascii_eqb_N (c d : ascii) :
  Ascii.eqb d c = (N_of_ascii c =? N_of_ascii d)%N.
Proof.
  destruct (Ascii.eqb_spec d c) as [->|Hne].
  - by rewrite N.eqb_refl.
  - symmetry. apply N.eqb_neq. intros Heq. apply Hne.
    by rewrite <- (ascii_N_embedding d), <- (ascii_N_embedding c), Heq.
Qed.

(** On a pattern of literal characters and a key without upper case
    letters, [LIKE pattern || '%'] is the literal prefix test. *)
Lemma like_chars_literal (p : string) : ∀ k,
  SQLite.like_literal p = true → SQLite.lower_case k = true →
  SQLite.like_chars ((N_of_ascii <$> list_ascii_of_string p) ++ [37%N])
                    (SQLite.sqlite_chars k)
  = HasPrefix k p.
Proof.
  induction p as [|c p IH]; intros k Hp Hk.
  { apply like_chars_percent_all. }
  unfold SQLite.like_literal in Hp. simpl in Hp.
  apply andb_true_iff in Hp as [Hc Hp].
  apply andb_true_iff in Hc as [Hc H_].
  apply andb_true_iff in Hc as [Hc Hpc].
  apply andb_true_iff in Hc as [Hin Hup].
  apply negb_true_iff in Hup, Hpc, H_.
  unfold byte_in in Hin. apply andb_true_iff in Hin as [H1 H2].
  apply N.leb_le in H1, H2.
  rewrite (Ascii_eqb_N "%" c) in Hpc. rewrite (Ascii_eqb_N "_" c) in H_.
  change (N_of_ascii "%") with 37%N in Hpc.
  change (N_of_ascii "_") with 95%N in H_.
  cbn [list_ascii_of_string]. rewrite fmap_cons, <- app_comm_cons.
  cbn [SQLite.like_chars]. rewrite N.eqb_sym, Hpc.
  rewrite (N.eqb_sym _ 95), H_.
  destruct k as [|d k]; [done|].
  unfold SQLite.lower_case in Hk. simpl in Hk.
  apply andb_true_iff in Hk as [Hd Hk]. apply negb_true_iff in Hd.
  unfold SQLite.sqlite_chars. cbn [SQLite.sqlite_chars_from HasPrefix].
  rewrite (Ascii_eqb_N c d).
  destruct (N.eqb_spec (N_of_ascii d) 0) as [E0|E0].
  { destruct (N.eqb_spec (N_of_ascii c) (N_of_ascii d)); [lia|done]. }
  destruct (N.ltb_spec (N_of_ascii d) 192) as [E1|E1].
  - fold (SQLite.sqlite_chars k). rewrite (IH k Hp Hk), orb_false_r.
    unfold SQLite.like_same, SQLite.sqlite3Tolower.
    rewrite !ascii_N_embedding, (proj2 (lowerByte_fixed c) Hup),
      (proj2 (lowerByte_fixed d) Hd).
    destruct (N.eqb_spec (N_of_ascii c) (N_of_ascii d)); [done|].
    by rewrite andb_false_r.
  - destruct (sqlite_chars_pending k
                (SQLite.sqlite3Utf8Trans1 (N_of_ascii d)))
      as (x & rest & -> & Hx).
    rewrite orb_false_r. unfold SQLite.like_same.
    destruct (N.eqb_spec (N_of_ascii c) x); [lia|].
    destruct (N.ltb_spec x 128); [lia|].
    destruct (N.eqb_spec (N_of_ascii c) (N_of_ascii d)); [lia|].
    by rewrite andb_false_r.
Qed.

Lemma sql_like_literal (p k : string) :
  SQLite.like_literal p = true → SQLite.lower_case k = true →
  SQLite.sql_like (p +:+ "%") k = HasPrefix k p.
Proof.
  intros Hp Hk. unfold SQLite.sql_like.
  rewrite sqlite_chars_ascii_app by (by apply like_literal_ascii_text).
  by apply like_chars_literal.
Qed.

Lemma like_literal_slash (key : string) :
  SQLite.like_literal key = true → SQLite.like_literal (key +:+ "/") = true.
Proof.
  intros H. unfold SQLite.like_literal in *. by rewrite allBytes_app, H.
Qed.

Lemma where_GetServices_literal (p k : string) :
  SQLite.like_literal p = true → SQLite.lower_case k = true →
  SQLite.where_GetServices p k = HasPrefix k p.
Proof. apply sql_like_literal. Qed.

Lemma where_DeleteService_literal (p k : string) :
  SQLite.like_literal p = true → SQLite.lower_case k = true →
  SQLite.where_DeleteService p k
  = String.eqb k p || HasPrefix k (p +:+ "/").
Proof.
  intros Hp Hk. unfold SQLite.where_DeleteService.
  change (p +:+ "/%") with (p +:+ ("/" +:+ "%")).
  rewrite <- string_app_assoc.
  rewrite sql_like_literal; [done|by apply like_literal_slash|done].
Qed.

Lemma SQLite_GetServices_literal (s : SQLite.SQLiteBackend) (p : string)
    order r :
  SQLite.like_literal p = true →
  (∀ k, is_Some (SQLite.rows s !! k) → SQLite.lower_case k = true) →
  range_of (SQLite.rows s) order →
  r ∈ (SQLite.GetServices s order Background p).1
  ↔ ∃ k row svc, SQLite.rows s !! k = Some row
       ∧ SQLite.json_Unmarshal (SQLite.value row) = Some svc
       ∧ HasPrefix k p = true ∧ r = present (k, svc).
Proof.
  intros Hp Hlow Hr. rewrite SQLite_GetServices_elem by done.
  split; intros (k & row & svc & Hm & Hd & Hw & ->); exists k, row, svc;
    split_and!; try done.
  - rewrite where_GetServices_literal in Hw; [done..|]. apply Hlow. eauto.
  - rewrite where_GetServices_literal; [done..|]. apply Hlow. eauto.
Qed.

Lemma SQLite_DeleteService_literal (s : SQLite.SQLiteBackend) (p k : string) :
  SQLite.like_literal p = true →
  (∀ k, is_Some (SQLite.rows s !! k) → SQLite.lower_case k = true) →
  SQLite.rows (SQLite.DeleteService s Background p).1 !! k
  = if String.eqb k p || HasPrefix k (p +:+ "/") then None
    else SQLite.rows s !! k.
Proof.
  intros Hp Hlow. rewrite SQLite_DeleteService_lookup.
  destruct (SQLite.rows s !! k) as [row|] eqn:Hk;
    [|by destruct (SQLite.where_DeleteService p k), (_ || _)].
  rewrite where_DeleteService_literal; [done..|]. apply Hlow; eauto.
Qed.

(** ** The helper [keyMatchesPrefix] *)

Lemma slice_from_app (p t : string) :
  SQLite.slice_from (String.length p) (p +:+ t) = t.
Proof. induction p as [|c p IH]; [done|]. rewrite append_cons. exact IH. Qed.

(** The unused helper [keyMatchesPrefix] is the test that the in-memory
    [DeleteService] makes. *)
Lemma keyMatchesPrefix_delete_test (k key : string) :
  SQLite.keyMatchesPrefix k key
  = String.eqb k key || HasPrefix k (key +:+ "/").
Proof.
  unfold SQLite.keyMatchesPrefix.
  destruct (HasPrefix k key) eqn:Hp; simpl.
  - apply HasPrefix_inv in Hp as [t ->]. rewrite slice_from_app.
    destruct t as [|c t].
    + simpl. symmetry. apply orb_true_iff. left. apply String.eqb_eq.
      clear. induction key as [|x key IH]; [done|].
      rewrite append_cons. by f_equal.
    + assert (String.eqb (key +:+ String c t) key = false) as ->.
      { apply String.eqb_neq. clear. induction key as [|x key IH].
        - done.
        - rewrite append_cons. intros [= H]. by apply IH. }
      simpl. clear. induction key as [|x key IH].
      * done.
      * rewrite !append_cons. simpl. by rewrite Ascii.eqb_refl.
  - symmetry. apply orb_false_iff. split.
    + apply String.eqb_neq. intros ->.
      assert (HasPrefix key key = true) as Hk.
      { clear. induction key as [|x key IH]; [done|]. simpl.
        by rewrite Ascii.eqb_refl. }
      congruence.
    + destruct (HasPrefix k (key +:+ "/")) eqn:Hq; [|done].
      apply HasPrefix_inv in Hq as [t ->]. rewrite string_app_assoc in Hp.
      by rewrite HasPrefix_app in Hp.
Qed.

(** * The claims *)

(** C1, the SQLite backend against the claim.  The table holds the records
    of [/skydns/com/example/_tcp/sip] and [/skydns/com/example/xtcp/web].
    The key of the second record is neither [/skydns/com/example/_tcp] nor
    that key followed by a slash and a suffix (the test of the in-memory
    [DeleteService], see [delete_test_iff], is false on it), and
    [DeleteService] of [/skydns/com/example/_tcp] removes it all the same:
    the underscore of the deleted key is a wildcard of [LIKE].  The
    in-memory backend, on the same records, keeps it. *)
Theorem C1_sqlite_delete_removes_unrelated_record :
  let key := Scenario.tcp_key in
  let k := Key Scenario.web in
  String.eqb k key || HasPrefix k (key +:+ "/") = false
  ∧ SQLite.rows Scenario.sqlite0 !! k
    = Some {| SQLite.value := SQLite.Document Scenario.web;
              SQLite.created_at := 101; SQLite.updated_at := 101 |}
  ∧ SQLite.DeleteService Scenario.sqlite0 Background key
    = ({| SQLite.rows := ∅; SQLite.path := ":memory:" |}, None)
  ∧ map_to_list
      (Memory.services
         (Memory.DeleteService Scenario.memory0
            (map_to_list (Memory.services Scenario.memory0))
            Background key).1)
    = [(k, with_Key "" Scenario.web)].
Proof. intros key k. split_and!; vm_compute; reflexivity. Qed.

(** C2, the SQLite backend against the claim.  On the same table,
    [GetServices] of [/skydns/com/example/_tcp] returns the record of
    [/skydns/com/example/xtcp/web], of whose key the prefix is no literal
    prefix ([HasPrefix] is false, see [HasPrefix_iff]).  The in-memory
    backend, on the same records, returns the other record only. *)
Theorem C2_sqlite_get_returns_unprefixed_record :
  let prefix := Scenario.tcp_key in
  HasPrefix (Key Scenario.web) prefix = false
  ∧ SQLite.GetServices Scenario.sqlite0
      (map_to_list (SQLite.rows Scenario.sqlite0)) Background prefix
    = ([defaultPriority Scenario.sip; defaultPriority Scenario.web], None)
  ∧ Memory.GetServices Scenario.memory0
      (map_to_list (Memory.services Scenario.memory0)) Background prefix
    = ([defaultPriority Scenario.sip], None).
Proof. intros prefix. split_and!; vm_compute; reflexivity. Qed.

(** C3.  A read that returns a saved record reports priority 10 when the
    record was saved with priority 0 and the saved priority otherwise, in
    the in-memory and in the SQLite backend; [SaveService] makes the record
    a saved one; and a read does return the saved record, with that
    priority, when the prefix is a prefix of its key (for the SQLite
    backend a prefix of ASCII bytes other than NUL, the empty prefix among
    them). *)
Theorem C3_priority_read_back (service : Service) (prefix : string) :
  (∀ m, Memory_saved (Memory.SaveService m Background service).1 service)
  ∧ (∀ s now,
       SQLite_saved (SQLite.SaveService s now Background service).1 service)
  ∧ (∀ m order r,
       Memory_saved m service →
       range_of (Memory.services m) order →
       r ∈ (Memory.GetServices m order Background prefix).1 →
       Key r = Key service →
       (Priority service = 0%Z → Priority r = 10%Z)
       ∧ (Priority service ≠ 0%Z → Priority r = Priority service))
  ∧ (∀ s order r,
       SQLite_saved s service →
       range_of (SQLite.rows s) order →
       r ∈ (SQLite.GetServices s order Background prefix).1 →
       Key r = Key service →
       (Priority service = 0%Z → Priority r = 10%Z)
       ∧ (Priority service ≠ 0%Z → Priority r = Priority service))
  ∧ (∀ m order,
       Memory_saved m service →
       range_of (Memory.services m) order →
       HasPrefix (Key service) prefix = true →
       ∃ r, r ∈ (Memory.GetServices m order Background prefix).1
            ∧ Key r = Key service
            ∧ (Priority service = 0%Z → Priority r = 10%Z)
            ∧ (Priority service ≠ 0%Z → Priority r = Priority service))
  ∧ (∀ s order,
       SQLite_saved s service →
       range_of (SQLite.rows s) order →
       ascii_text prefix = true →
       HasPrefix (Key service) prefix = true →
       ∃ r, r ∈ (SQLite.GetServices s order Background prefix).1
            ∧ Key r = Key service
            ∧ (Priority service = 0%Z → Priority r = 10%Z)
            ∧ (Priority service ≠ 0%Z → Priority r = Priority service)).
Proof.
  assert (Hrb : ∀ r, Priority r = Priority (defaultPriority service) →
    (Priority service = 0%Z → Priority r = 10%Z)
    ∧ (Priority service ≠ 0%Z → Priority r = Priority service)).
  { intros r ->. rewrite Priority_defaultPriority.
    destruct (Z.eqb_spec (Priority service) 0); split; done. }
  split_and!.
  - intros m. apply Memory_SaveService_saved.
  - intros s now. apply SQLite_SaveService_saved.
  - intros m order r Hs Hr Hin Hk. apply Hrb. f_equal.
    eapply Memory_read_back; eauto.
  - intros s order r Hs Hr Hin Hk. apply Hrb.
    rewrite <- Priority_SQLite_presented. f_equal.
    eapply SQLite_read_back; eauto.
  - intros m order Hs Hr Hp. exists (defaultPriority service).
    split; [by apply Memory_read_present|].
    split; [apply Key_defaultPriority|]. by apply Hrb.
  - intros s order Hs Hr Ha Hp. exists (SQLite_presented service).
    split; [by apply SQLite_read_present|].
    split; [apply Key_SQLite_presented|].
    apply Hrb, Priority_SQLite_presented.
Qed.

(** C4.  With a context that is already done, [GetServices],
    [SaveService] and [DeleteService] return the error of the context
    ([context.Canceled] for a canceled context); the in-memory backend is
    returned as it was, no entry added or removed, and so is the table of
    the SQLite backend. *)
Theorem C4_done_context_returns_its_error (ctx : Context) (e : error)
    (m : Memory.MemoryBackend) (s : SQLite.SQLiteBackend)
    (order_m : list (string * Service)) (order_s : list (string * SQLite.Row))
    (now : Z) (prefix key : string) (service : Service) :
  ctx_Err ctx = Some e →
  (ctx = CanceledCtx → e = Canceled)
  ∧ Memory.GetServices m order_m ctx prefix = ([], Some e)
  ∧ Memory.SaveService m ctx service = (m, Some e)
  ∧ Memory.DeleteService m order_m ctx key = (m, Some e)
  ∧ SQLite.GetServices s order_s ctx prefix = ([], Some e)
  ∧ SQLite.SaveService s now ctx service = (s, Some e)
  ∧ SQLite.DeleteService s ctx key = (s, Some e).
Proof.
  intros He.
  unfold Memory.GetServices, Memory.SaveService, Memory.DeleteService,
    SQLite.GetServices, SQLite.SaveService, SQLite.DeleteService.
  rewrite He. split_and!; try reflexivity.
  intros ->. simpl in He. congruence.
Qed.

Lemma Memory_nodedup_loop prefix order : ∀ acc,
  foldl (Memory.GetServices_nodedup_body prefix) acc order
  = acc ++ (present <$>
      filter (λ e : string * Service, HasPrefix e.1 prefix = true) order).
Proof.
  induction order as [|[k v] order IH]; intros acc; cbn [foldl].
  { by rewrite app_nil_r. }
  rewrite IH, filter_cons. unfold Memory.GetServices_nodedup_body.
  case_decide as Hp; simpl in Hp.
  - rewrite Hp. simpl. by rewrite <- app_assoc.
  - destruct (HasPrefix k prefix); done.
Qed.

Lemma SQLite_nodedup_loop selected : ∀ acc,
  foldl SQLite.GetServices_nodedup_body acc selected
  = acc ++ (present <$> SQLite.decoded_rows selected).
Proof.
  induction selected as [|[k row] selected IH]; intros acc; cbn [foldl].
  { by rewrite app_nil_r. }
  rewrite IH. unfold SQLite.decoded_rows. cbn [omap list_omap].
  fold (SQLite.decoded_rows selected). simpl.
  destruct (SQLite.json_Unmarshal (SQLite.value row)); simpl; [|done].
  by rewrite <- app_assoc.
Qed.

(** C9.  On the entries of the map, and on the rows of the table, the
    deduplication pass drops nothing: [GetServices] returns what the same
    function without the pass returns, for every context, prefix and order
    of enumeration, and its loop returns one record for each entry whose
    key has the prefix (for each selected row that decodes). *)
Theorem C9_dedup_pass_drops_nothing (ctx : Context) (prefix : string) :
  (∀ m order,
     range_of (Memory.services m) order →
     Memory.GetServices m order ctx prefix
     = Memory.GetServices_nodedup m order ctx prefix
     ∧ Memory.GetServices_loop prefix order
       = present <$>
           filter (λ e : string * Service, HasPrefix e.1 prefix = true)
                  order)
  ∧ (∀ s order,
       range_of (SQLite.rows s) order →
       SQLite.GetServices s order ctx prefix
       = SQLite.GetServices_nodedup s order ctx prefix
       ∧ SQLite.GetServices_loop (SQLite.select_rows prefix order)
         = present <$>
             SQLite.decoded_rows (SQLite.select_rows prefix order)).
Proof.
  split.
  - intros m order Hr.
    assert (Hl := Memory_loop_distinct prefix order
                    (range_of_NoDup _ _ Hr)).
    split; [|exact Hl].
    unfold Memory.GetServices, Memory.GetServices_nodedup.
    destruct (ctx_Err ctx); [done|]. f_equal.
    by rewrite Hl, Memory_nodedup_loop.
  - intros s order Hr.
    assert (Hl := SQLite_loop_distinct (SQLite.select_rows prefix order)
                    (NoDup_fst_filter _ _ (range_of_NoDup _ _ Hr))).
    split; [|exact Hl].
    unfold SQLite.GetServices, SQLite.GetServices_nodedup.
    destruct (ctx_Err ctx); [done|]. f_equal.
    by rewrite Hl, SQLite_nodedup_loop.
Qed.

Lemma defaultPriority_Key_ne (a b : Service) :
  Key a ≠ Key b → defaultPriority a ≠ defaultPriority b.
Proof.
  intros Hne Heq. apply Hne.
  by rewrite <- (Key_defaultPriority a), <- (Key_defaultPriority b), Heq.
Qed.

(** C6.  In both loops the identity of a candidate is (Host, Port,
    Priority, Weight, Text, Key), and of the candidates of equal identity
    only the first encountered is returned, on any sequence of entries or
    rows.  Two records saved with the same content under different keys
    are both returned, as distinct results, by a read whose prefix their
    keys have.  The SQLite backend returns them as their JSON documents
    restore them ([SQLite_presented]: byte for byte when their strings are
    valid UTF-8), for a prefix of ASCII bytes other than NUL. *)
Theorem C6_dedup_identity_includes_key (a b : Service) (prefix : string) :
  Key a ≠ Key b →
  (Host a, Port a, Priority a, Weight a, Text a)
  = (Host b, Port b, Priority b, Weight b, Text b) →
  HasPrefix (Key a) prefix = true →
  HasPrefix (Key b) prefix = true →
  (∀ k k' s s',
     dedupKey k s = dedupKey k' s' ↔ identity (k, s) = identity (k', s'))
  ∧ (∀ order,
       Memory.GetServices_loop prefix order
       = present <$> first_encountered []
           (filter (λ e : string * Service, HasPrefix e.1 prefix = true)
                   order))
  ∧ (∀ selected,
       SQLite.GetServices_loop selected
       = present <$> first_encountered [] (SQLite.decoded_rows selected))
  ∧ (∀ m order,
       let m' := (Memory.SaveService
                    (Memory.SaveService m Background a).1 Background b).1 in
       range_of (Memory.services m') order →
       let result := (Memory.GetServices m' order Background prefix).1 in
       defaultPriority a ∈ result ∧ defaultPriority b ∈ result
       ∧ defaultPriority a ≠ defaultPriority b)
  ∧ (∀ s now now' order,
       ascii_text prefix = true →
       let s' := (SQLite.SaveService
                    (SQLite.SaveService s now Background a).1
                    now' Background b).1 in
       range_of (SQLite.rows s') order →
       let result := (SQLite.GetServices s' order Background prefix).1 in
       SQLite_presented a ∈ result ∧ SQLite_presented b ∈ result
       ∧ SQLite_presented a ≠ SQLite_presented b
       ∧ (utf8_fields a = true → SQLite_presented a = defaultPriority a)
       ∧ (utf8_fields b = true → SQLite_presented b = defaultPriority b)).
Proof.
  intros Hne _ Ha Hb. split_and!.
  - intros. apply dedupKey_identity.
  - intros. apply Memory_loop_policy.
  - intros. apply SQLite_loop_policy.
  - intros m order m' Hr result. split_and!.
    + apply Memory_read_present; [|done..]. unfold Memory_saved. simpl.
      rewrite lookup_insert_ne by done. apply lookup_insert_eq.
    + apply Memory_read_present; [|done..]. apply Memory_SaveService_saved.
    + by apply defaultPriority_Key_ne.
  - intros s now now' order Hascii s' Hr result. split_and!.
    + apply SQLite_read_present; [|done..].
      destruct (SQLite_SaveService_saved s now a) as (row & Hrow & Hv).
      exists row. split; [|done]. simpl.
      rewrite upsert_lookup_ne by done. exact Hrow.
    + apply SQLite_read_present; [|done..]. apply SQLite_SaveService_saved.
    + intros Heq. apply Hne.
      by rewrite <- (Key_SQLite_presented a), <- (Key_SQLite_presented b),
        Heq.
    + apply SQLite_presented_valid.
    + apply SQLite_presented_valid.
Qed.

(** The policy at work on rows that an engine returns twice: the second
    candidate has the identity of the first and is dropped, though its TTL
    differs. *)
Example dedup_drops_second_of_equal_identity :
  Memory.GetServices_loop "/skydns"
    [ (Key Scenario.sip, Scenario.sip);
      (Key Scenario.sip, {| Host := "10.0.0.1"; Port := 5060; Priority := 0;
                            Weight := 0; Text := ""; Mail := false;
                            TTL := 60; TargetStrip := 0; Group := "";
                            Key := "" |}) ]
  = [defaultPriority Scenario.sip].
Proof. vm_compute. reflexivity. Qed.

Lemma upsert_value now key v (t : gmap string SQLite.Row) k :
  SQLite.value <$> SQLite.upsert now key v t !! k
  = if decide (k = key) then Some v else SQLite.value <$> t !! k.
Proof.
  case_decide as Hk.
  - subst k. destruct (upsert_lookup_eq now key v t) as (row & -> & <- & _).
    done.
  - by rewrite upsert_lookup_ne.
Qed.

Lemma upsert_size_present now key v (t : gmap string SQLite.Row) :
  is_Some (t !! key) → size (SQLite.upsert now key v t) = size t.
Proof.
  intros [old Hold]. unfold SQLite.upsert. rewrite Hold.
  by apply map_size_insert_Some.
Qed.

Lemma upsert_upsert now now' key v (t : gmap string SQLite.Row) :
  SQLite.upsert now' key v (SQLite.upsert now key v t)
  = <[key := {| SQLite.value := v;
                SQLite.created_at :=
                  match t !! key with
                  | Some old => SQLite.created_at old
                  | None => now
                  end;
                SQLite.updated_at := now' |}]> t.
Proof.
  destruct (upsert_lookup_eq now key v t) as (row & Hrow & Hv & Hu & Hc).
  unfold SQLite.upsert at 1. rewrite Hrow, Hc.
  unfold SQLite.upsert. destruct (t !! key); by rewrite insert_insert_eq.
Qed.

Lemma SQLite_GetServices_values s s' order order' prefix r :
  (∀ k, SQLite.value <$> SQLite.rows s !! k
        = SQLite.value <$> SQLite.rows s' !! k) →
  range_of (SQLite.rows s) order →
  range_of (SQLite.rows s') order' →
  r ∈ (SQLite.GetServices s order Background prefix).1 →
  r ∈ (SQLite.GetServices s' order' Background prefix).1.
Proof.
  intros Hv Hr Hr' Hin. apply SQLite_GetServices_elem in Hin; [|done].
  destruct Hin as (k & row & svc & Hm & Hd & Hp & ->).
  apply SQLite_GetServices_elem; [done|].
  specialize (Hv k). rewrite Hm in Hv. simpl in Hv.
  destruct (SQLite.rows s' !! k) as [row'|] eqn:Hk; [|done].
  injection Hv as Hv. exists k, row', svc. by rewrite <- Hv.
Qed.

(** Two tables with the same keys and values give the same records to a
    read, up to the order of enumeration. *)
Lemma SQLite_GetServices_values_perm s s' order order' prefix :
  (∀ k, SQLite.value <$> SQLite.rows s !! k
        = SQLite.value <$> SQLite.rows s' !! k) →
  range_of (SQLite.rows s) order →
  range_of (SQLite.rows s') order' →
  (SQLite.GetServices s order Background prefix).1
  ≡ₚ (SQLite.GetServices s' order' Background prefix).1.
Proof.
  intros Hv Hr Hr'. apply NoDup_Permutation.
  - by apply SQLite_GetServices_NoDup.
  - by apply SQLite_GetServices_NoDup.
  - intros r. split; apply SQLite_GetServices_values; done.
Qed.

(** The column [updated_at] records the clock of the last [SaveService]:
    the second call of the scenario, one second after the first, changes
    that column and nothing else of the row.  No statement of the backend
    reads the column. *)
Example second_save_sets_updated_at :
  let s0 := {| SQLite.rows := ∅; SQLite.path := ":memory:" |} in
  let once := (SQLite.SaveService s0 100 Background Scenario.sip).1 in
  let twice := (SQLite.SaveService once 101 Background Scenario.sip).1 in
  SQLite.rows once !! Key Scenario.sip
  = Some {| SQLite.value := SQLite.Document Scenario.sip;
            SQLite.created_at := 100; SQLite.updated_at := 100 |}
  ∧ SQLite.rows twice !! Key Scenario.sip
    = Some {| SQLite.value := SQLite.Document Scenario.sip;
              SQLite.created_at := 100; SQLite.updated_at := 101 |}.
Proof. split; vm_compute; reflexivity. Qed.

(** C5.  [SaveService] on a key that is present replaces the stored record
    by the given one, whatever the old record was (no field of the old
    record is kept), and keeps the number of records.  A second call with
    the same record yields the same store and the same [GetServices]
    results as one call: the in-memory backend is left as the first call
    left it; the SQLite table keeps its keys, its values, its creation
    times and its number of rows, and every other row whole; the second
    call only sets the column [updated_at] of the row again, which no
    statement of the backend reads, so that the table is the same when the
    clock has not advanced.  In both backends [GetServices] returns the
    same records after two calls as after one, in the order of the
    enumeration. *)
Theorem C5_save_replaces_and_repeats (service : Service) :
  (∀ m, is_Some (Memory.services m !! Key service) →
        Memory.Count (Memory.SaveService m Background service).1
        = Memory.Count m)
  ∧ (∀ m, Memory_saved (Memory.SaveService m Background service).1 service)
  ∧ (∀ m, let once := (Memory.SaveService m Background service).1 in
          Memory.SaveService once Background service = (once, None))
  ∧ (∀ m order order' prefix,
       let once := (Memory.SaveService m Background service).1 in
       let twice := (Memory.SaveService once Background service).1 in
       range_of (Memory.services once) order →
       range_of (Memory.services twice) order' →
       (Memory.GetServices twice order' Background prefix).1
       ≡ₚ (Memory.GetServices once order Background prefix).1)
  ∧ (∀ s now, is_Some (SQLite.rows s !! Key service) →
        SQLite.Count (SQLite.SaveService s now Background service).1
        = SQLite.Count s)
  ∧ (∀ s now,
        SQLite_saved (SQLite.SaveService s now Background service).1 service)
  ∧ (∀ s now now',
       let once := (SQLite.SaveService s now Background service).1 in
       let twice := (SQLite.SaveService once now' Background service).1 in
       (SQLite.SaveService once now' Background service).2 = None
       ∧ SQLite.Count twice = SQLite.Count once
       ∧ (∀ k, SQLite.value <$> SQLite.rows twice !! k
               = SQLite.value <$> SQLite.rows once !! k)
       ∧ (∀ k, SQLite.created_at <$> SQLite.rows twice !! k
               = SQLite.created_at <$> SQLite.rows once !! k)
       ∧ (∀ k, k ≠ Key service →
               SQLite.rows twice !! k = SQLite.rows once !! k)
       ∧ SQLite.updated_at <$> SQLite.rows twice !! Key service = Some now'
       ∧ (now' = now → twice = once)
       ∧ (∀ order order' prefix,
            range_of (SQLite.rows once) order →
            range_of (SQLite.rows twice) order' →
            (SQLite.GetServices twice order' Background prefix).1
            ≡ₚ (SQLite.GetServices once order Background prefix).1)
       ∧ (∀ order order' prefix r,
            range_of (SQLite.rows once) order →
            range_of (SQLite.rows twice) order' →
            r ∈ (SQLite.GetServices twice order' Background prefix).1
            ↔ r ∈ (SQLite.GetServices once order Background prefix).1)).
Proof.
  split_and!.
  - intros m Hin. unfold Memory.Count. simpl.
    destruct Hin as [old Hold]. by apply map_size_insert_Some.
  - intros m. apply Memory_SaveService_saved.
  - intros m once. unfold Memory.SaveService. simpl.
    by rewrite insert_insert_eq.
  - intros m order order' prefix once twice Hr Hr'.
    assert (twice = once) as Heq.
    { unfold twice, once, Memory.SaveService. simpl.
      by rewrite insert_insert_eq. }
    rewrite Heq in Hr' |- *. by apply Memory_GetServices_perm.
  - intros s now Hin. unfold SQLite.Count. simpl.
    by apply upsert_size_present.
  - intros s now. apply SQLite_SaveService_saved.
  - intros s now now' once twice.
    assert (Hon : SQLite.rows once
                  = SQLite.upsert now (Key service)
                      (SQLite.json_Marshal service) (SQLite.rows s))
      by reflexivity.
    assert (Htw : SQLite.rows twice
                  = SQLite.upsert now' (Key service)
                      (SQLite.json_Marshal service) (SQLite.rows once))
      by reflexivity.
    assert (Hval : ∀ k, SQLite.value <$> SQLite.rows twice !! k
                        = SQLite.value <$> SQLite.rows once !! k).
    { intros k. rewrite Htw, upsert_value.
      case_decide as Hk; [|done]. subst k.
      rewrite Hon, upsert_value. by rewrite decide_True. }
    destruct (upsert_lookup_eq now (Key service)
                (SQLite.json_Marshal service) (SQLite.rows s))
      as (row & Hrow & Hv & Hu & Hc).
    destruct (upsert_lookup_eq now' (Key service)
                (SQLite.json_Marshal service) (SQLite.rows once))
      as (row' & Hrow' & Hv' & Hu' & Hc').
    rewrite <- Hon in Hrow. rewrite <- Htw in Hrow'.
    split_and!.
    + done.
    + unfold SQLite.Count. rewrite Htw. apply upsert_size_present.
      by rewrite Hrow.
    + exact Hval.
    + intros k. destruct (decide (k = Key service)) as [->|Hk].
      * rewrite Hrow', Hrow. cbn [fmap option_fmap option_map].
        by rewrite Hc', Hrow.
      * by rewrite Htw, upsert_lookup_ne.
    + intros k Hk. by rewrite Htw, upsert_lookup_ne.
    + rewrite Hrow'. cbn [fmap option_fmap option_map]. by rewrite Hu'.
    + intros ->. unfold twice, once, SQLite.SaveService. simpl.
      rewrite upsert_upsert. f_equal. unfold SQLite.upsert.
      destruct (SQLite.rows s !! Key service); done.
    + intros order order' prefix Hr Hr'.
      by apply SQLite_GetServices_values_perm.
    + intros order order' prefix r Hr Hr'. split;
        apply SQLite_GetServices_values; done.
Qed.

(** ** The backend selector *)

Lemma mapBytes_lowerByte_fixed (s : string) :
  mapBytes lowerByte s = s ↔ allBytes (λ c, negb (isUpperByte c)) s = true.
Proof.
  induction s as [|c s IH]; simpl; [done|].
  rewrite andb_true_iff, negb_true_iff, <- IH, <- lowerByte_fixed.
  split; [by intros [= -> ->]|by intros [-> ->]].
Qed.

Lemma ToLower_ASCII mapRunes (s : string) :
  allBytes isASCIIByte s = true → ToLower mapRunes s = mapBytes lowerByte s.
Proof.
  intros Ha. unfold ToLower. rewrite Ha.
  destruct (allBytes (λ c, negb (isUpperByte c)) s) eqn:Hu; [|done].
  symmetry. by apply mapBytes_lowerByte_fixed.
Qed.

Lemma GetBackendType_unrecognized (p : Selector.Platform) :
  let l := ToLower (Selector.mapRunes p) (Selector.Getenv p "COREDNS_BACKEND") in
  l ≠ "" → Selector.recognized_alias l = false →
  Selector.GetBackendType p = l.
Proof.
  intros l Hne Hrec. unfold Selector.GetBackendType. fold l.
  unfold Selector.recognized_alias in Hrec.
  apply bool_decide_eq_false in Hrec.
  repeat match goal with
  | |- context [String.eqb l ?a] =>
      destruct (String.eqb_spec l a) as [Heq|_];
      [exfalso; first [by apply Hne | apply Hrec; rewrite Heq; set_solver]|]
  end.
  reflexivity.
Qed.

(** C8, the claim as stated fails: the value [Consul] is not empty and is
    no alias in any case, and [GetBackendType] returns [consul], not the
    value as it was given. *)
Lemma C8_upper_case_value_not_verbatim :
  let p := Scenario.readonly_host "Consul" "" in
  Selector.Getenv p "COREDNS_BACKEND" = "Consul"
  ∧ Selector.recognized_alias
      (ToLower (Selector.mapRunes p) "Consul") = false
  ∧ Selector.GetBackendType p = "consul"
  ∧ Selector.GetBackendType p ≠ Selector.Getenv p "COREDNS_BACKEND".
Proof. intros p. split_and!; try reflexivity. vm_compute. congruence. Qed.

(** C8, amended.  For every value of the variable whose lower-casing by
    [strings.ToLower] is not empty and is none of the recognised aliases,
    [GetBackendType] returns the lower-cased value; for a value of ASCII
    bytes this is the value with its upper case letters lowered, which is
    the value itself exactly when it has no upper case letter. *)
Theorem C8_unrecognized_value_is_lower_cased (p : Selector.Platform) :
  let v := Selector.Getenv p "COREDNS_BACKEND" in
  let l := ToLower (Selector.mapRunes p) v in
  l ≠ "" → Selector.recognized_alias l = false →
  Selector.GetBackendType p = l
  ∧ (allBytes isASCIIByte v = true →
       l = mapBytes lowerByte v
       ∧ (Selector.GetBackendType p = v
          ↔ allBytes (λ c, negb (isUpperByte c)) v = true)).
Proof.
  intros v l Hne Hrec.
  pose proof (GetBackendType_unrecognized p Hne Hrec) as Hg.
  split; [exact Hg|]. intros Ha.
  assert (l = mapBytes lowerByte v) as Hl by (by apply ToLower_ASCII).
  split; [exact Hl|].
  assert (Selector.GetBackendType p = mapBytes lowerByte v) as ->
    by (rewrite <- Hl; exact Hg).
  apply mapBytes_lowerByte_fixed.
Qed.

(** C7, the claim as stated fails: the type [sqlite] is a recognised type,
    and on a host where the data directory cannot be created [NewBackend]
    returns the failure of the directory creation and no instance (the
    interface value holds a nil [*SQLiteBackend]). *)
Lemma C7_recognized_type_without_instance :
  let p := Scenario.readonly_host "" "" in
  let cfg := {| Selector.Type_ := Selector.BackendTypeSQLite;
                Selector.SQLitePath := "" |} in
  Selector.canonical_type (Selector.Type_ cfg) = true
  ∧ Selector.NewBackend p (Some cfg)
    = (Some (Selector.SQLitePointer None),
       Some (OtherError "mkdir /var/lib/external-dns: permission denied"))
  ∧ Selector.is_instance (Selector.NewBackend p (Some cfg)).1 = false.
Proof. intros p cfg. split_and!; reflexivity. Qed.

Lemma NewSQLiteBackend_result (p : Selector.Platform) (path : string) :
  let r := Selector.NewSQLiteBackend p path in
  r.2 ≠ Some ErrUnknownBackend
  ∧ (r.2 = None ↔ is_Some r.1)
  ∧ (∀ b, r.1 = Some b → SQLite.path b = path).
Proof.
  unfold Selector.NewSQLiteBackend.
  destruct (if negb (String.eqb path ":memory:") then _ else None);
    [simpl; split_and!; [done|split; [done|by intros []]|done]|].
  destruct (Selector.sql_Open p "sqlite" _);
    [simpl; split_and!; [done|split; [done|by intros []]|done]|].
  destruct (Selector.db_Exec p _ _); simpl.
  - split_and!; [done|split; eauto|by intros b [= <-]].
  - split_and!; [done|split; [done|by intros []]|done].
Qed.

(** C7, amended.  For a configuration whose type is none of [etcd],
    [sqlite] and [memory], [NewBackend] returns the nil backend and
    [ErrUnknownBackend].  For the three types it returns what the
    constructor of the type returns and never [ErrUnknownBackend]: for
    [memory] an empty in-memory backend and no error; for [sqlite] the
    SQLite backend at the configured path (the default path when none is
    configured) and no error when the construction succeeds, and the
    failure of the construction with no instance when it does not; for
    [etcd] the result of the etcd constructor. *)
Theorem C7_NewBackend_by_type (p : Selector.Platform)
    (cfg : option Selector.BackendConfig) :
  let c := Selector.effective_config p cfg in
  let r := Selector.NewBackend p cfg in
  (Selector.canonical_type (Selector.Type_ c) = false →
     r = (None, Some ErrUnknownBackend))
  ∧ (Selector.canonical_type (Selector.Type_ c) = true →
       r.2 ≠ Some ErrUnknownBackend)
  ∧ (Selector.Type_ c = Selector.BackendTypeMemory →
       r = (Some (Selector.MemoryPointer Memory.NewMemoryBackend), None))
  ∧ (Selector.Type_ c = Selector.BackendTypeSQLite →
       let path := if String.eqb (Selector.SQLitePath c) ""
                   then "/var/lib/external-dns/coredns.db"
                   else Selector.SQLitePath c in
       let built := Selector.NewSQLiteBackend p path in
       r = (Some (Selector.SQLitePointer built.1), built.2)
       ∧ (built.2 = None ↔ Selector.is_instance r.1 = true))
  ∧ (Selector.Type_ c = Selector.BackendTypeEtcd →
       r = ((Selector.newETCDClient p).1,
            OtherError <$> (Selector.newETCDClient p).2)).
Proof.
  intros c r. unfold r, Selector.NewBackend. fold c.
  unfold Selector.canonical_type.
  destruct (String.eqb_spec (Selector.Type_ c) Selector.BackendTypeEtcd)
    as [He|He].
  { rewrite He. split_and!; try done.
    - intros _. destruct (Selector.newETCDClient p) as [b [msg|]]; done.
    - by destruct (Selector.newETCDClient p). }
  destruct (String.eqb_spec (Selector.Type_ c) Selector.BackendTypeSQLite)
    as [Hs|Hs].
  { rewrite Hs. split_and!; try done.
    - intros _.
      destruct (NewSQLiteBackend_result p
        (if String.eqb (Selector.SQLitePath c) ""
         then "/var/lib/external-dns/coredns.db"
         else Selector.SQLitePath c)) as (Hn & _ & _).
      by destruct (Selector.NewSQLiteBackend p _).
    - intros _.
      destruct (NewSQLiteBackend_result p
        (if String.eqb (Selector.SQLitePath c) ""
         then "/var/lib/external-dns/coredns.db"
         else Selector.SQLitePath c)) as (_ & Hi & _).
      destruct (Selector.NewSQLiteBackend p _) as [b err].
      simpl in *. split; [done|]. rewrite Hi.
      destruct b; simpl; split; try done; eauto. }
  destruct (String.eqb_spec (Selector.Type_ c) Selector.BackendTypeMemory)
    as [Hm|Hm].
  { rewrite Hm. split_and!; done. }
  split_and!; try done.
  - intros H. exfalso. apply bool_decide_eq_true in H.
    repeat (apply elem_of_cons in H as [H|H]; [done|]).
    by apply elem_of_nil in H.
Qed.

(** ** The in-memory backend with addresses *)

Lemma contents_lookup (w : Pointers.world) (k : string) :
  Memory.services (Pointers.contents w) !! k
  = Pointers.cells w !! k ≫= (λ slot, Pointers.heap w !! slot).
Proof. unfold Pointers.contents. simpl. apply lookup_omap. Qed.

Lemma Memory_ext (m m' : Memory.MemoryBackend) :
  (∀ k, Memory.services m !! k = Memory.services m' !! k) → m = m'.
Proof. destruct m, m'. simpl. intros H. f_equal. by apply map_eq. Qed.

Lemma contents_ext (w w' : Pointers.world) :
  (∀ k, Memory.services (Pointers.contents w) !! k
        = Memory.services (Pointers.contents w') !! k) →
  Pointers.contents w = Pointers.contents w'.
Proof. apply Memory_ext. Qed.

(** An assignment through a pointer that is the slot of no key leaves the
    map as it is. *)
Lemma contents_store (w : Pointers.world) (l : Pointers.loc) (v : Service) :
  Pointers.not_a_slot w l →
  Pointers.contents (Pointers.store l v w) = Pointers.contents w.
Proof.
  intros Hl. apply contents_ext. intros k. rewrite !contents_lookup. simpl.
  destruct (Pointers.cells w !! k) as [slot|] eqn:Hk; [|done]. simpl.
  apply lookup_insert_ne. intros ->. by apply (Hl k).
Qed.

Lemma wf_store (w : Pointers.world) (l : Pointers.loc) (v : Service) :
  Pointers.wf w → Pointers.wf (Pointers.store l v w).
Proof.
  intros [Hs Hinj]. split; [|exact Hinj]. simpl. intros k slot Hk.
  destruct (decide (slot = l)) as [->|Hne].
  - rewrite lookup_insert_eq. eauto.
  - rewrite lookup_insert_ne by done. eauto.
Qed.

Lemma entries_of_elem (h : gmap Pointers.loc Service)
    (order : list (string * Pointers.loc)) k v :
  (k, v) ∈ Pointers.entries_of h order
  ↔ ∃ slot, (k, slot) ∈ order ∧ h !! slot = Some v.
Proof.
  unfold Pointers.entries_of. rewrite list_elem_of_omap. split.
  - intros [[k' slot] [Hin Hv]]. simpl in Hv.
    destruct (h !! slot) eqn:E; simplify_eq/=. by exists slot.
  - intros [slot [Hin Hv]]. exists (k, slot). split; [done|]. simpl.
    by rewrite Hv.
Qed.

Lemma entries_of_cons (h : gmap Pointers.loc Service) k slot order :
  Pointers.entries_of h ((k, slot) :: order)
  = match h !! slot with
    | Some v => (k, v) :: Pointers.entries_of h order
    | None => Pointers.entries_of h order
    end.
Proof.
  unfold Pointers.entries_of. cbn [omap list_omap]. simpl.
  by destruct (h !! slot).
Qed.

Lemma entries_of_NoDup (h : gmap Pointers.loc Service)
    (order : list (string * Pointers.loc)) :
  NoDup order.*1 → NoDup (Pointers.entries_of h order).*1.
Proof.
  induction order as [|[k slot] order IH]; [done|].
  rewrite fmap_cons, NoDup_cons. intros [Hk Hnd]. rewrite entries_of_cons.
  destruct (h !! slot) as [v|]; [|by apply IH].
  rewrite fmap_cons. apply NoDup_cons. split; [|by apply IH].
  simpl. intros Hin. apply Hk.
  apply list_elem_of_fmap in Hin as [[k' v'] [-> Hin]].
  apply entries_of_elem in Hin as [slot' [Hin _]].
  apply list_elem_of_fmap. by exists (k', slot').
Qed.

Lemma NoDup_of_fst {A B : Type} (l : list (A * B)) : NoDup l.*1 → NoDup l.
Proof. apply NoDup_fmap_1. Qed.

(** An enumeration of the slots is an enumeration of the map that the
    world holds. *)
Lemma entries_of_range (w : Pointers.world)
    (order : list (string * Pointers.loc)) :
  range_of (Pointers.cells w) order →
  range_of (Memory.services (Pointers.contents w))
           (Pointers.entries_of (Pointers.heap w) order).
Proof.
  intros Hr. unfold range_of. apply NoDup_Permutation.
  - apply NoDup_of_fst, entries_of_NoDup. by eapply range_of_NoDup.
  - apply NoDup_map_to_list.
  - intros [k v]. rewrite entries_of_elem, elem_of_map_to_list.
    rewrite contents_lookup, bind_Some.
    split; intros [slot [H1 H2]]; exists slot; split; try done;
      by eapply range_of_elem.
Qed.

Lemma fresh_loc_None (h : gmap Pointers.loc Service) :
  h !! fresh (dom h) = None.
Proof. apply not_elem_of_dom, is_fresh. Qed.

Lemma entries_of_insert_fresh (h : gmap Pointers.loc Service) l v
    (order : list (string * Pointers.loc)) :
  h !! l = None →
  (∀ e, e ∈ order → is_Some (h !! e.2)) →
  Pointers.entries_of (<[l := v]> h) order = Pointers.entries_of h order.
Proof.
  intros Hl. induction order as [|[k slot] order IH]; intros Hs; [done|].
  rewrite !entries_of_cons.
  assert (slot ≠ l) as Hne.
  { intros ->. destruct (Hs (k, l)) as [x Hx]; [left|]. simpl in Hx.
    congruence. }
  rewrite lookup_insert_ne by done.
  rewrite IH by (intros e He; apply Hs; by right). done.
Qed.

(** The loop that allocates the copies follows the loop on values: the
    addresses it appends are new, pairwise distinct, and hold the records
    that the loop on values appends; the locations in use before are left
    as they were. *)
Lemma Pointers_loop prefix order : ∀ st vfound,
  (∀ e, e ∈ order → is_Some (Pointers.mem st !! e.2)) →
  ∃ news vals,
    Pointers.found (foldl (Pointers.GetServices_body prefix) st order)
    = Pointers.found st ++ news
    ∧ found (foldl (Memory.GetServices_body prefix)
               (mkScan (Pointers.seen st) vfound)
               (Pointers.entries_of (Pointers.mem st) order))
      = vfound ++ vals
    ∧ (λ l, Pointers.mem
              (foldl (Pointers.GetServices_body prefix) st order) !! l)
        <$> news
      = Some <$> vals
    ∧ (∀ l, l ∈ news → Pointers.mem st !! l = None)
    ∧ NoDup news
    ∧ (∀ l, is_Some (Pointers.mem st !! l) →
            Pointers.mem (foldl (Pointers.GetServices_body prefix) st order)
              !! l
            = Pointers.mem st !! l).
Proof.
  induction order as [|[k slot] order IH]; intros st vfound Hs.
  { exists [], []. simpl. rewrite !app_nil_r. split_and!; try done.
    - intros l Hl. by apply elem_of_nil in Hl.
    - constructor. }
  destruct (Hs (k, slot)) as [svc Hslot]; [left|]. simpl in Hslot.
  assert (Hs' : ∀ e, e ∈ order → is_Some (Pointers.mem st !! e.2))
    by (intros e He; apply Hs; by right).
  rewrite entries_of_cons, Hslot. cbn [foldl].
  unfold Pointers.GetServices_body at 2 4 6.
  unfold Memory.GetServices_body at 2.
  destruct (HasPrefix k prefix) eqn:Hp; simpl; [|by apply IH].
  rewrite Hslot.
  destruct (bool_decide (dedupKey k svc ∈ Pointers.seen st)) eqn:Hd;
    [by apply IH|].
  set (v := defaultPriority (with_Key k svc)).
  set (l := fresh (dom (Pointers.mem st))).
  set (st1 := {| Pointers.seen := dedupKey k svc :: Pointers.seen st;
                 Pointers.found := Pointers.found st ++ [l];
                 Pointers.mem := <[l := v]> (Pointers.mem st) |}).
  assert (Hl : Pointers.mem st !! l = None) by apply fresh_loc_None.
  destruct (IH st1 (vfound ++ [v])) as (news & vals & H1 & H2 & H3 & H4 & H5 & H6).
  { intros e He. simpl. destruct (Hs' e He) as [x Hx].
    rewrite lookup_insert_ne; [eauto|]. intros Heq.
    rewrite <- Heq in Hx. congruence. }
  simpl in H2. rewrite entries_of_insert_fresh in H2 by done.
  assert (Hl1 : Pointers.mem st1 !! l = Some v)
    by (simpl; apply lookup_insert_eq).
  exists (l :: news), (v :: vals). split_and!.
  - rewrite H1. simpl. by rewrite <- app_assoc.
  - rewrite H2. by rewrite <- app_assoc.
  - rewrite !fmap_cons. f_equal; [|exact H3].
    rewrite H6 by (rewrite Hl1; eauto). exact Hl1.
  - intros l' [->|Hin]%elem_of_cons; [done|].
    specialize (H4 l' Hin). simpl in H4.
    destruct (decide (l' = l)) as [->|Hne]; [done|].
    by rewrite lookup_insert_ne in H4.
  - apply NoDup_cons. split; [|done]. intros Hin.
    specialize (H4 l Hin). congruence.
  - intros l' Hl'.
    assert (l ≠ l') as Hne
      by (intros Heq; rewrite <- Heq in Hl'; destruct Hl'; congruence).
    rewrite H6; simpl; by rewrite lookup_insert_ne.
Qed.

Lemma Pointers_GetServices_spec w order prefix :
  Pointers.wf w → range_of (Pointers.cells w) order →
  ∃ locs w',
    Pointers.GetServices w order Background prefix = (locs, None, w')
    ∧ Pointers.cells w' = Pointers.cells w
    ∧ (∀ l, is_Some (Pointers.heap w !! l) →
            Pointers.heap w' !! l = Pointers.heap w !! l)
    ∧ (λ l, Pointers.heap w' !! l) <$> locs
      = Some <$> (Memory.GetServices (Pointers.contents w)
                    (Pointers.entries_of (Pointers.heap w) order)
                    Background prefix).1
    ∧ (∀ l, l ∈ locs → Pointers.heap w !! l = None)
    ∧ NoDup locs.
Proof.
  intros [Hs Hinj] Hr. unfold Pointers.GetServices. simpl.
  destruct (Pointers_loop prefix order
              (Pointers.mkScan [] [] (Pointers.heap w)) [])
    as (news & vals & H1 & H2 & H3 & H4 & H5 & H6).
  { intros [k slot] He. simpl. apply (Hs k).
    by eapply range_of_elem. }
  simpl in *. eexists _, _. split; [reflexivity|]. simpl.
  unfold Memory.GetServices_loop. rewrite H1, H2.
  split_and!; done.
Qed.

Lemma Pointers_read_keeps_contents (w w' : Pointers.world) :
  Pointers.wf w →
  Pointers.cells w' = Pointers.cells w →
  (∀ l, is_Some (Pointers.heap w !! l) →
        Pointers.heap w' !! l = Pointers.heap w !! l) →
  Pointers.contents w' = Pointers.contents w ∧ Pointers.wf w'.
Proof.
  intros [Hs Hinj] Hc Hh. split.
  - apply contents_ext. intros k. rewrite !contents_lookup, Hc.
    destruct (Pointers.cells w !! k) as [slot|] eqn:Hk; [|done]. simpl.
    apply Hh. by apply (Hs k).
  - split; rewrite Hc; [|exact Hinj]. intros k slot Hk.
    rewrite Hh by (by apply (Hs k)). by apply (Hs k).
Qed.

Lemma Pointers_SaveService_spec w service v :
  Pointers.wf w →
  Pointers.heap w !! service = Some v →
  Pointers.not_a_slot w service →
  ∃ w', Pointers.SaveService w Background service = Some (None, w')
    ∧ Pointers.wf w'
    ∧ Pointers.contents w'
      = (Memory.SaveService (Pointers.contents w) Background v).1
    ∧ Pointers.not_a_slot w' service
    ∧ Pointers.heap w' !! service = Some v.
Proof.
  intros [Hs Hinj] Hv Hn. unfold Pointers.SaveService. simpl. rewrite Hv.
  destruct (Pointers.cells w !! Key v) as [slot|] eqn:Hk.
  - eexists. split; [reflexivity|].
    assert (slot ≠ service) as Hne by (intros ->; by apply (Hn (Key v))).
    split_and!.
    + split; simpl; [|exact Hinj]. intros k s Hks.
      destruct (decide (s = slot)) as [->|Hd].
      * rewrite lookup_insert_eq. eauto.
      * rewrite lookup_insert_ne by done. by apply (Hs k).
    + apply Memory_ext. intros k. rewrite contents_lookup. simpl.
      destruct (decide (k = Key v)) as [->|Hkv].
      * rewrite Hk, lookup_insert_eq. simpl. by rewrite lookup_insert_eq.
      * rewrite (lookup_insert_ne _ (Key v) k) by done.
        rewrite lookup_omap.
        destruct (Pointers.cells w !! k) as [s|] eqn:Hks; [|done]. simpl.
        apply lookup_insert_ne. intros <-. apply Hkv.
        by apply (Hinj k (Key v) slot).
    + exact Hn.
    + simpl. by rewrite lookup_insert_ne.
  - unfold Pointers.new. eexists. split; [reflexivity|].
    pose proof (fresh_loc_None (Pointers.heap w)) as Hf.
    set (slot := fresh (dom (Pointers.heap w))) in *.
    assert (slot ≠ service) as Hne by (intros ->; congruence).
    assert (Hold : ∀ k s, Pointers.cells w !! k = Some s → s ≠ slot).
    { intros k s Hks ->. destruct (Hs k slot Hks). congruence. }
    split_and!.
    + split; simpl.
      * intros k s. destruct (decide (k = Key v)) as [->|Hkv].
        -- rewrite lookup_insert_eq. intros [= <-].
           rewrite lookup_insert_eq. eauto.
        -- rewrite lookup_insert_ne by done. intros Hks.
           rewrite lookup_insert_ne by (intros <-; by apply (Hold k slot)).
           by apply (Hs k).
      * intros k1 k2 s.
        destruct (decide (k1 = Key v)) as [->|H1];
          destruct (decide (k2 = Key v)) as [->|H2]; try done.
        -- rewrite lookup_insert_eq, lookup_insert_ne by done.
           intros [= <-] Hk2. by destruct (Hold k2 slot).
        -- rewrite lookup_insert_eq, lookup_insert_ne by done.
           intros Hk1 [= <-]. by destruct (Hold k1 slot).
        -- rewrite !lookup_insert_ne by done. apply Hinj.
    + apply Memory_ext. intros k. rewrite contents_lookup. simpl.
      destruct (decide (k = Key v)) as [->|Hkv].
      * rewrite !lookup_insert_eq. simpl. by rewrite lookup_insert_eq.
      * rewrite !lookup_insert_ne by done. rewrite lookup_omap.
        destruct (Pointers.cells w !! k) as [s|] eqn:Hks; [|done]. simpl.
        apply lookup_insert_ne. intros <-. by apply (Hold k slot).
    + intros k. simpl. destruct (decide (k = Key v)) as [->|Hkv].
      * rewrite lookup_insert_eq. congruence.
      * rewrite lookup_insert_ne by done. apply Hn.
    + simpl. by rewrite lookup_insert_ne.
Qed.

(** C10.  [GetServices] of the in-memory backend returns addresses of new
    copies: they are pairwise distinct, were not in use before the call,
    and are the slot of no key; an assignment through any of them leaves
    the stored map as it was, and a later [GetServices] with the same
    prefix returns the records that the first one returned.  [SaveService]
    stores in the map a copy of the record it is given, with the key
    cleared: an assignment through the argument after the call leaves the
    stored map as the call left it. *)
Theorem C10_reads_and_saves_copy (w : Pointers.world)
    (order : list (string * Pointers.loc)) (prefix : string) :
  Pointers.wf w →
  range_of (Pointers.cells w) order →
  (∃ locs w',
     Pointers.GetServices w order Background prefix = (locs, None, w')
     ∧ Pointers.contents w' = Pointers.contents w
     ∧ NoDup locs
     ∧ (∀ l, l ∈ locs →
          Pointers.heap w !! l = None ∧ Pointers.not_a_slot w' l)
     ∧ (λ l, Pointers.heap w' !! l) <$> locs
       = Some <$> (Memory.GetServices (Pointers.contents w)
                     (Pointers.entries_of (Pointers.heap w) order)
                     Background prefix).1
     ∧ (∀ l v, l ∈ locs →
          let w2 := Pointers.store l v w' in
          Pointers.contents w2 = Pointers.contents w
          ∧ ∀ order2, range_of (Pointers.cells w2) order2 →
              ∃ locs2 w3,
                Pointers.GetServices w2 order2 Background prefix
                = (locs2, None, w3)
                ∧ (λ l, Pointers.heap w3 !! l) <$> locs2
                  ≡ₚ (λ l, Pointers.heap w' !! l) <$> locs))
  ∧ (∀ service v,
       Pointers.heap w !! service = Some v →
       Pointers.not_a_slot w service →
       ∃ w', Pointers.SaveService w Background service = Some (None, w')
         ∧ Pointers.contents w'
           = (Memory.SaveService (Pointers.contents w) Background v).1
         ∧ Memory.services (Pointers.contents w') !! Key v
           = Some (with_Key "" v)
         ∧ ∀ v', Pointers.contents (Pointers.store service v' w')
                 = Pointers.contents w').
Proof.
  intros Hwf Hr. split.
  - destruct (Pointers_GetServices_spec w order prefix Hwf Hr)
      as (locs & w' & Hget & Hc & Hh & Hderef & Hnew & Hnd).
    destruct (Pointers_read_keeps_contents w w' Hwf Hc Hh) as [Hcont Hwf'].
    assert (Hslot : ∀ l, l ∈ locs → Pointers.not_a_slot w' l).
    { intros l Hl k Hk. rewrite Hc in Hk.
      destruct (proj1 Hwf k l Hk) as [x Hx]. rewrite (Hnew l Hl) in Hx.
      done. }
    exists locs, w'. split_and!; try done.
    + intros l Hl. split; [by apply Hnew|by apply Hslot].
    + intros l v Hl w2.
      assert (Hcont2 : Pointers.contents w2 = Pointers.contents w)
        by (unfold w2; rewrite contents_store by (by apply Hslot); done).
      split; [exact Hcont2|]. intros order2 Hr2.
      destruct (Pointers_GetServices_spec w2 order2 prefix
                  (wf_store w' l v Hwf') Hr2)
        as (locs2 & w3 & Hget2 & _ & _ & Hderef2 & _ & _).
      exists locs2, w3. split; [exact Hget2|].
      rewrite Hderef2, Hderef, Hcont2. apply fmap_Permutation.
      apply Memory_GetServices_perm.
      * rewrite <- Hcont2. by apply entries_of_range.
      * by apply entries_of_range.
  - intros service v Hv Hn.
    destruct (Pointers_SaveService_spec w service v Hwf Hv Hn)
      as (w' & Hsave & Hwf' & Hcont & Hn' & Hv').
    exists w'. split_and!; try done.
    + rewrite Hcont. simpl. apply lookup_insert_eq.
    + intros v'. by apply contents_store.
Qed.

(** * The theorems on the scenarios *)

Lemma C3_witness :
  Priority Scenario.sip = 0%Z
  ∧ Priority (defaultPriority Scenario.sip) = 10%Z
  ∧ ∃ r, r ∈ (SQLite.GetServices Scenario.sqlite0
                (map_to_list (SQLite.rows Scenario.sqlite0))
                Background "/skydns/com").1
         ∧ Key r = Key Scenario.sip ∧ Priority r = 10%Z.
Proof.
  split; [reflexivity|].
  destruct (C3_priority_read_back Scenario.sip "/skydns/com")
    as (_ & _ & Hm & _ & _ & Hs).
  split.
  - refine (proj1 (Hm Scenario.memory0
                     (map_to_list (Memory.services Scenario.memory0))
                     (defaultPriority Scenario.sip) _ _ _ _) _).
    + vm_compute. reflexivity.
    + unfold range_of. reflexivity.
    + apply (bool_decide_unpack _). vm_compute. exact I.
    + reflexivity.
    + reflexivity.
  - destruct (Hs Scenario.sqlite0
                (map_to_list (SQLite.rows Scenario.sqlite0)))
      as (r & Hin & Hk & H0 & _).
    + eexists. split; vm_compute; reflexivity.
    + unfold range_of. reflexivity.
    + reflexivity.
    + reflexivity.
    + exists r. split; [exact Hin|]. split; [exact Hk|].
      apply H0. reflexivity.
Defined.

Lemma C4_witness :
  ctx_Err CanceledCtx = Some Canceled
  ∧ Memory.SaveService Scenario.memory0 CanceledCtx Scenario.sip_copy
    = (Scenario.memory0, Some Canceled).
Proof.
  split; [reflexivity|].
  exact (proj1 (proj2 (proj2
    (C4_done_context_returns_its_error CanceledCtx Canceled
       Scenario.memory0 Scenario.sqlite0 [] [] 0 "" "" Scenario.sip_copy
       eq_refl)))).
Defined.

Lemma C5_witness :
  (is_Some (Memory.services Scenario.memory0 !! Key Scenario.sip)
   ∧ Memory.Count (Memory.SaveService Scenario.memory0 Background
                     Scenario.sip).1
     = Memory.Count Scenario.memory0)
  ∧ (is_Some (SQLite.rows Scenario.sqlite0 !! Key Scenario.sip)
     ∧ SQLite.Count (SQLite.SaveService Scenario.sqlite0 102 Background
                       Scenario.sip).1
       = SQLite.Count Scenario.sqlite0).
Proof.
  assert (is_Some (Memory.services Scenario.memory0 !! Key Scenario.sip))
    as Hin by (eexists; vm_compute; reflexivity).
  assert (is_Some (SQLite.rows Scenario.sqlite0 !! Key Scenario.sip))
    as Hin' by (eexists; vm_compute; reflexivity).
  destruct (C5_save_replaces_and_repeats Scenario.sip)
    as (Hm & _ & _ & _ & Hs & _).
  split; (split; [assumption|]).
  - exact (Hm Scenario.memory0 Hin).
  - exact (Hs Scenario.sqlite0 102%Z Hin').
Defined.

Lemma C6_witness :
  let m' := (Memory.SaveService
               (Memory.SaveService Memory.NewMemoryBackend Background
                  Scenario.sip).1 Background Scenario.sip_copy).1 in
  let result := (Memory.GetServices m' (map_to_list (Memory.services m'))
                   Background "/skydns/com/example").1 in
  let s' := (SQLite.SaveService
               (SQLite.SaveService Scenario.sqlite0 102 Background
                  Scenario.sip).1 103 Background Scenario.sip_copy).1 in
  let rows := (SQLite.GetServices s' (map_to_list (SQLite.rows s'))
                 Background "/skydns/com/example").1 in
  (defaultPriority Scenario.sip ∈ result
   ∧ defaultPriority Scenario.sip_copy ∈ result
   ∧ defaultPriority Scenario.sip ≠ defaultPriority Scenario.sip_copy)
  ∧ (defaultPriority Scenario.sip ∈ rows
     ∧ defaultPriority Scenario.sip_copy ∈ rows).
Proof.
  intros m' result s' rows.
  assert (Key Scenario.sip ≠ Key Scenario.sip_copy) as Hne
    by (vm_compute; discriminate).
  destruct (C6_dedup_identity_includes_key Scenario.sip Scenario.sip_copy
              "/skydns/com/example" Hne eq_refl eq_refl eq_refl)
    as (_ & _ & _ & Hm & Hs).
  split.
  - apply (Hm Memory.NewMemoryBackend). unfold range_of. reflexivity.
  - destruct (Hs Scenario.sqlite0 102%Z 103%Z (map_to_list (SQLite.rows s'))
                eq_refl)
      as (Ha & Hb & _ & Ea & Eb).
    + unfold range_of. reflexivity.
    + rewrite <- (Ea eq_refl), <- (Eb eq_refl). split; [exact Ha|exact Hb].
Defined.

Lemma C7_witness :
  Selector.NewBackend (Scenario.readonly_host "" "")
    (Some {| Selector.Type_ := "consul"; Selector.SQLitePath := "" |})
  = (None, Some ErrUnknownBackend).
Proof.
  exact (proj1 (C7_NewBackend_by_type (Scenario.readonly_host "" "")
                  (Some {| Selector.Type_ := "consul";
                           Selector.SQLitePath := "" |})) eq_refl).
Defined.

Lemma C8_witness :
  Selector.GetBackendType (Scenario.readonly_host "consul" "") = "consul".
Proof.
  refine (proj1 (C8_unrecognized_value_is_lower_cased
                   (Scenario.readonly_host "consul" "") _ _)).
  - vm_compute. discriminate.
  - reflexivity.
Defined.

Lemma C9_witness :
  Memory.GetServices Scenario.memory0
    (map_to_list (Memory.services Scenario.memory0)) Background "/skydns"
  = Memory.GetServices_nodedup Scenario.memory0
      (map_to_list (Memory.services Scenario.memory0)) Background "/skydns"
  ∧ SQLite.GetServices Scenario.sqlite0
      (map_to_list (SQLite.rows Scenario.sqlite0)) Background "/skydns"
    = SQLite.GetServices_nodedup Scenario.sqlite0
        (map_to_list (SQLite.rows Scenario.sqlite0)) Background "/skydns".
Proof.
  destruct (C9_dedup_pass_drops_nothing Background "/skydns") as [Hm Hs].
  split; [apply (Hm Scenario.memory0)|apply (Hs Scenario.sqlite0)];
    unfold range_of; reflexivity.
Defined.

Lemma C10_witness :
  ∃ locs w',
    Pointers.GetServices Scenario.world0
      (map_to_list (Pointers.cells Scenario.world0)) Background "/skydns"
    = (locs, None, w')
    ∧ Pointers.contents w' = Pointers.contents Scenario.world0
    ∧ ∀ l v, l ∈ locs →
        Pointers.contents (Pointers.store l v w')
        = Pointers.contents Scenario.world0.
Proof.
  assert (Pointers.wf Scenario.world0) as Hwf.
  { unfold Pointers.wf, Scenario.world0.
    cbn [Pointers.cells Pointers.heap]. split.
    - intros k slot [<- <-]%lookup_singleton_Some. eexists.
      vm_compute. reflexivity.
    - intros k1 k2 slot [<- _]%lookup_singleton_Some
        [<- _]%lookup_singleton_Some. reflexivity. }
  assert (range_of (Pointers.cells Scenario.world0)
            (map_to_list (Pointers.cells Scenario.world0))) as Hr
    by (unfold range_of; reflexivity).
  destruct (C10_reads_and_saves_copy Scenario.world0 _ "/skydns" Hwf Hr)
    as [(locs & w' & Hget & Hc & _ & _ & _ & Hst) _].
  exists locs, w'. split_and!; [exact Hget|exact Hc|].
  intros l v Hl. exact (proj1 (Hst l v Hl)).
Defined.

(** * Further properties of the backends *)

(** ** Diagnostic operations of the in-memory backend *)

Lemma foldl_snoc {A : Type} (l : list A) : ∀ acc,
  foldl (λ (keys : list A) (k : A), keys ++ [k]) acc l = acc ++ l.
Proof.
  induction l as [|x l IH]; intros acc; cbn [foldl].
  - by rewrite app_nil_r.
  - rewrite IH. by rewrite <- app_assoc.
Qed.

Lemma range_of_length {V : Type} (m : gmap string V) order :
  range_of m order → length order = size m.
Proof.
  unfold range_of. intros H. rewrite H. apply length_map_to_list.
Qed.

Lemma range_of_keys {V : Type} (m : gmap string V) order k :
  range_of m order → (k ∈ order.*1 ↔ is_Some (m !! k)).
Proof.
  intros Hr. rewrite list_elem_of_fmap. split.
  - intros [[k' v] [-> Hin]]. exists v. by eapply range_of_elem.
  - intros [v Hv]. exists (k, v). split; [done|]. by eapply range_of_elem.
Qed.

Lemma sorted_keys_unique (l1 l2 : list string) :
  l1 ≡ₚ l2 → merge_sort String.le l1 = merge_sort String.le l2.
Proof.
  intros Hp. apply (StronglySorted_unique String.le).
  - apply StronglySorted_merge_sort; apply _.
  - apply StronglySorted_merge_sort; apply _.
  - by rewrite !merge_sort_Permutation.
Qed.

(** X1.  [Keys] of the in-memory backend lists every stored key once, in
    increasing order, as many keys as [Count] reports, and the list does not
    depend on the order in which the map is enumerated. *)
Theorem X1_Memory_Keys_sorted (m : Memory.MemoryBackend)
    (order order' : list (string * Service)) :
  range_of (Memory.services m) order →
  range_of (Memory.services m) order' →
  StronglySorted String.le (Memory.Keys m order)
  ∧ NoDup (Memory.Keys m order)
  ∧ (∀ k, k ∈ Memory.Keys m order ↔ is_Some (Memory.services m !! k))
  ∧ length (Memory.Keys m order) = Memory.Count m
  ∧ Memory.Keys m order' = Memory.Keys m order.
Proof.
  intros Hr Hr'. unfold Memory.Keys, Memory.sort_Strings.
  rewrite !foldl_snoc. simpl.
  assert (Hp : merge_sort String.le order.*1 ≡ₚ order.*1)
    by apply merge_sort_Permutation.
  split_and!.
  - apply StronglySorted_merge_sort; apply _.
  - rewrite Hp. by eapply range_of_NoDup.
  - intros k. rewrite Hp. by apply range_of_keys.
  - rewrite Hp, length_fmap. by apply range_of_length.
  - apply sorted_keys_unique. unfold range_of in *. by rewrite Hr, Hr'.
Qed.

Lemma Snapshot_lookup_other order : ∀ (snap : gmap string Service) k,
  k ∉ order.*1 →
  foldl (λ (snapshot : gmap string Service) (kv : string * Service),
           <[kv.1 := kv.2]> snapshot) snap order !! k
  = snap !! k.
Proof.
  induction order as [|[k0 v0] order IH]; intros snap k Hk; [done|].
  rewrite fmap_cons, not_elem_of_cons in Hk. destruct Hk as [Hne Hk].
  cbn [foldl]. rewrite IH by done. simpl. by rewrite lookup_insert_ne.
Qed.

Lemma Snapshot_lookup_entry order : ∀ (snap : gmap string Service) k v,
  NoDup order.*1 → (k, v) ∈ order →
  foldl (λ (snapshot : gmap string Service) (kv : string * Service),
           <[kv.1 := kv.2]> snapshot) snap order !! k
  = Some v.
Proof.
  induction order as [|[k0 v0] order IH]; intros snap k v Hnd Hin.
  { by apply elem_of_nil in Hin. }
  rewrite fmap_cons in Hnd. apply NoDup_cons in Hnd as [Hk0 Hnd].
  cbn [foldl]. apply elem_of_cons in Hin as [[= -> ->]|Hin].
  - rewrite Snapshot_lookup_other by done. simpl. apply lookup_insert_eq.
  - by apply IH.
Qed.

(** X2.  [Snapshot] returns a map with the stored entries and no other,
    whatever the order in which the map is enumerated; it has [Count]
    entries. *)
Theorem X2_Memory_Snapshot_is_the_map (m : Memory.MemoryBackend)
    (order : list (string * Service)) :
  range_of (Memory.services m) order →
  Memory.Snapshot m order = Memory.services m
  ∧ size (Memory.Snapshot m order) = Memory.Count m.
Proof.
  intros Hr.
  assert (Memory.Snapshot m order = Memory.services m) as Heq.
  { apply map_eq. intros k. unfold Memory.Snapshot.
    destruct (Memory.services m !! k) as [v|] eqn:Hv.
    - apply Snapshot_lookup_entry; [by eapply range_of_NoDup|].
      by eapply range_of_elem.
    - rewrite Snapshot_lookup_other; [apply lookup_empty|].
      rewrite (range_of_keys _ _ k Hr), Hv. by intros []. }
  split; [exact Heq|]. by rewrite Heq.
Qed.

(** ** Saving and reading *)

(** X3.  Round trip: after [SaveService] of a record, a [GetServices] whose
    prefix the key of the record has returns the record with all its
    fields, the key included, and priority 10 in place of 0; it returns no
    other record with that key.  The SQLite backend returns the record as
    its JSON document restores it ([SQLite_presented]), which is the record
    itself when its strings are valid UTF-8, and returns it when the prefix
    is of ASCII bytes other than NUL. *)
Theorem X3_save_then_get_round_trip (service : Service) (prefix : string) :
  HasPrefix (Key service) prefix = true →
  (∀ m order,
     let m' := (Memory.SaveService m Background service).1 in
     range_of (Memory.services m') order →
     let result := (Memory.GetServices m' order Background prefix).1 in
     defaultPriority service ∈ result
     ∧ ∀ r, r ∈ result → Key r = Key service → r = defaultPriority service)
  ∧ (∀ s now order,
       let s' := (SQLite.SaveService s now Background service).1 in
       range_of (SQLite.rows s') order →
       let result := (SQLite.GetServices s' order Background prefix).1 in
       (ascii_text prefix = true → SQLite_presented service ∈ result)
       ∧ (∀ r, r ∈ result → Key r = Key service →
               r = SQLite_presented service)
       ∧ (utf8_fields service = true →
          SQLite_presented service = defaultPriority service)).
Proof.
  intros Hp. split.
  - intros m order m' Hr result.
    pose proof (Memory_SaveService_saved m service) as Hs. split.
    + by apply Memory_read_present.
    + intros r Hin Hk. by eapply Memory_read_back.
  - intros s now order s' Hr result.
    pose proof (SQLite_SaveService_saved s now service) as Hs. split_and!.
    + intros Ha. by apply SQLite_read_present.
    + intros r Hin Hk. by eapply SQLite_read_back.
    + apply SQLite_presented_valid.
Qed.

(** X4.  [SaveService] changes the record of its key only: every other key
    keeps its record (in SQLite its whole row), a read returns the same
    records with other keys as before, and the count grows by one when the
    key was not stored. *)
Theorem X4_save_changes_one_key (service : Service) :
  (∀ m k, k ≠ Key service →
     Memory.services (Memory.SaveService m Background service).1 !! k
     = Memory.services m !! k)
  ∧ (∀ s now k, k ≠ Key service →
       SQLite.rows (SQLite.SaveService s now Background service).1 !! k
       = SQLite.rows s !! k)
  ∧ (∀ m, Memory.services m !! Key service = None →
       Memory.Count (Memory.SaveService m Background service).1
       = S (Memory.Count m))
  ∧ (∀ s now, SQLite.rows s !! Key service = None →
       SQLite.Count (SQLite.SaveService s now Background service).1
       = S (SQLite.Count s))
  ∧ (∀ m order order' prefix r,
       range_of (Memory.services m) order →
       range_of (Memory.services
                   (Memory.SaveService m Background service).1) order' →
       Key r ≠ Key service →
       r ∈ (Memory.GetServices (Memory.SaveService m Background service).1
              order' Background prefix).1
       ↔ r ∈ (Memory.GetServices m order Background prefix).1)
  ∧ (∀ s now order order' prefix r,
       range_of (SQLite.rows s) order →
       range_of (SQLite.rows
                   (SQLite.SaveService s now Background service).1) order' →
       Key r ≠ Key service →
       r ∈ (SQLite.GetServices (SQLite.SaveService s now Background service).1
              order' Background prefix).1
       ↔ r ∈ (SQLite.GetServices s order Background prefix).1).
Proof.
  split_and!.
  - intros m k Hk. simpl. by rewrite lookup_insert_ne.
  - intros s now k Hk. simpl. by apply upsert_lookup_ne.
  - intros m Hn. unfold Memory.Count. simpl. by apply map_size_insert_None.
  - intros s now Hn. unfold SQLite.Count. simpl. unfold SQLite.upsert.
    rewrite Hn. by apply map_size_insert_None.
  - intros m order order' prefix r Hr Hr' Hk.
    rewrite !Memory_GetServices_elem by done. simpl.
    split; intros (k & v & Hm & Hp & ->); exists k, v;
      rewrite Key_present in Hk; simpl in Hk.
    + by rewrite lookup_insert_ne in Hm.
    + by rewrite lookup_insert_ne.
  - intros s now order order' prefix r Hr Hr' Hk.
    rewrite !SQLite_GetServices_elem by done. simpl.
    split; intros (k & row & svc & Hm & Hd & Hw & ->); exists k, row, svc;
      rewrite Key_present in Hk; simpl in Hk.
    + by rewrite upsert_lookup_ne in Hm.
    + by rewrite upsert_lookup_ne.
Qed.

Lemma Priority_present_nonzero (c : string * Service) :
  Priority (present c) ≠ 0%Z.
Proof.
  unfold present. rewrite Priority_defaultPriority. simpl.
  destruct (Z.eqb_spec (Priority c.2) 0); [done|done].
Qed.

Lemma decoded_rows_length selected :
  length (SQLite.decoded_rows selected) ≤ length selected.
Proof.
  induction selected as [|[k row] selected IH]; [done|].
  unfold SQLite.decoded_rows. cbn [omap list_omap].
  fold (SQLite.decoded_rows selected). simpl.
  destruct (SQLite.json_Unmarshal (SQLite.value row)); simpl; lia.
Qed.

(** X5.  What [GetServices] returns, in both backends: records with
    pairwise distinct keys, none with priority 0, at most as many as there
    are stored records; in the in-memory backend every returned key has
    the prefix. *)
Theorem X5_get_result_invariants (prefix : string) :
  (∀ m order,
     range_of (Memory.services m) order →
     let result := (Memory.GetServices m order Background prefix).1 in
     NoDup (Key <$> result)
     ∧ (∀ r, r ∈ result → Priority r ≠ 0%Z)
     ∧ (∀ r, r ∈ result → HasPrefix (Key r) prefix = true)
     ∧ length result ≤ Memory.Count m)
  ∧ (∀ s order,
       range_of (SQLite.rows s) order →
       let result := (SQLite.GetServices s order Background prefix).1 in
       NoDup (Key <$> result)
       ∧ (∀ r, r ∈ result → Priority r ≠ 0%Z)
       ∧ length result ≤ SQLite.Count s).
Proof.
  split.
  - intros m order Hr result. unfold result, Memory.GetServices. simpl.
    rewrite Memory_loop_distinct by (by eapply range_of_NoDup).
    split_and!.
    + rewrite present_fst. apply NoDup_fst_filter. by eapply range_of_NoDup.
    + intros r [c [-> _]]%list_elem_of_fmap. apply Priority_present_nonzero.
    + intros r [c [-> Hc]]%list_elem_of_fmap. rewrite Key_present.
      by apply list_elem_of_filter in Hc as [? _].
    + rewrite length_fmap. unfold Memory.Count.
      rewrite <- (range_of_length _ _ Hr). apply length_filter.
  - intros s order Hr result. unfold result, SQLite.GetServices. simpl.
    rewrite SQLite_loop_distinct
      by (apply NoDup_fst_filter; by eapply range_of_NoDup).
    split_and!.
    + rewrite present_fst. apply decoded_rows_NoDup, NoDup_fst_filter.
      by eapply range_of_NoDup.
    + intros r [c [-> _]]%list_elem_of_fmap. apply Priority_present_nonzero.
    + rewrite length_fmap. unfold SQLite.Count.
      rewrite <- (range_of_length _ _ Hr).
      etrans; [apply decoded_rows_length|]. apply length_filter.
Qed.

Lemma filter_all {A : Type} (P : A → Prop) `{!∀ x, Decision (P x)}
    (l : list A) :
  (∀ x, x ∈ l → P x) → filter P l = l.
Proof.
  induction l as [|x l IH]; intros Hall; [done|].
  rewrite filter_cons, decide_True by (apply Hall; left).
  f_equal. apply IH. intros y Hy. apply Hall. by right.
Qed.

Lemma filter_none {A : Type} (P : A → Prop) `{!∀ x, Decision (P x)}
    (l : list A) :
  (∀ x, x ∈ l → ¬ P x) → filter P l = [].
Proof.
  induction l as [|x l IH]; intros Hall; [done|].
  rewrite filter_cons, decide_False by (apply Hall; left).
  apply IH. intros y Hy. apply Hall. by right.
Qed.

(** X6.  [GetServices] with the empty prefix returns the whole store: in
    the in-memory backend one record for each entry, as many as [Count]
    reports; in the SQLite backend one record for each row that decodes. *)
Theorem X6_get_empty_prefix_returns_all :
  (∀ m order,
     range_of (Memory.services m) order →
     Memory.GetServices m order Background "" = (present <$> order, None)
     ∧ length (Memory.GetServices m order Background "").1 = Memory.Count m)
  ∧ (∀ s order,
       range_of (SQLite.rows s) order →
       SQLite.GetServices s order Background ""
       = (present <$> SQLite.decoded_rows order, None)).
Proof.
  split.
  - intros m order Hr. unfold Memory.GetServices. simpl.
    rewrite Memory_loop_distinct by (by eapply range_of_NoDup).
    rewrite filter_all by done. split; [done|].
    rewrite length_fmap. by apply range_of_length.
  - intros s order Hr. unfold SQLite.GetServices. simpl.
    rewrite SQLite_loop_distinct
      by (apply NoDup_fst_filter; by eapply range_of_NoDup).
    unfold SQLite.select_rows. rewrite filter_all; [done|].
    intros x _. apply sql_like_percent_all.
Qed.

(** X7.  When no stored key begins with the prefix, [GetServices] returns
    the empty list and no error; in the SQLite backend for a prefix of
    literal characters ([SQLite.like_literal]) and stored keys without
    upper case letters. *)
Theorem X7_get_without_match_is_empty (prefix : string) :
  (∀ m order,
     range_of (Memory.services m) order →
     (∀ k, is_Some (Memory.services m !! k) → HasPrefix k prefix = false) →
     Memory.GetServices m order Background prefix = ([], None))
  ∧ (∀ s order,
       range_of (SQLite.rows s) order →
       SQLite.like_literal prefix = true →
       (∀ k, is_Some (SQLite.rows s !! k) →
             SQLite.lower_case k = true ∧ HasPrefix k prefix = false) →
       SQLite.GetServices s order Background prefix = ([], None)).
Proof.
  split.
  - intros m order Hr Hn. unfold Memory.GetServices. simpl.
    rewrite Memory_loop_distinct by (by eapply range_of_NoDup).
    rewrite filter_none; [done|]. intros [k v] Hin. simpl.
    rewrite Hn; [done|]. exists v. by eapply range_of_elem.
  - intros s order Hr Hlit Hn. unfold SQLite.GetServices. simpl.
    unfold SQLite.select_rows. rewrite filter_none; [done|].
    intros [k row] Hin. simpl.
    destruct (Hn k) as [Hlow Hpre];
      [exists row; by eapply range_of_elem|].
    rewrite where_GetServices_literal by done. by rewrite Hpre.
Qed.

(** X8.  A row whose value does not decode is skipped by the SQLite
    [GetServices]: the call returns no error, no record with the key of
    that row, and, for a prefix of ASCII bytes other than NUL, every row
    that decodes and whose key begins with the prefix. *)
Theorem X8_sqlite_get_skips_malformed_rows (s : SQLite.SQLiteBackend)
    (order : list (string * SQLite.Row)) (prefix k : string)
    (row : SQLite.Row) :
  range_of (SQLite.rows s) order →
  SQLite.rows s !! k = Some row →
  SQLite.json_Unmarshal (SQLite.value row) = None →
  (SQLite.GetServices s order Background prefix).2 = None
  ∧ (∀ r, r ∈ (SQLite.GetServices s order Background prefix).1 → Key r ≠ k)
  ∧ (∀ k' row' svc,
       SQLite.rows s !! k' = Some row' →
       SQLite.json_Unmarshal (SQLite.value row') = Some svc →
       ascii_text prefix = true →
       HasPrefix k' prefix = true →
       present (k', svc) ∈ (SQLite.GetServices s order Background prefix).1).
Proof.
  intros Hr Hk Hd. split_and!.
  - done.
  - intros r Hin%SQLite_GetServices_elem; [|done].
    destruct Hin as (k' & row' & svc & Hm & Hd' & _ & ->).
    rewrite Key_present. simpl. intros ->. congruence.
  - intros k' row' svc Hm Hd' Ha Hp.
    apply SQLite_GetServices_elem; [done|].
    exists k', row', svc. split_and!; try done.
    by apply where_GetServices_HasPrefix.
Qed.

(** ** Deleting *)

Lemma SQLite_ext (s s' : SQLite.SQLiteBackend) :
  SQLite.path s = SQLite.path s' →
  (∀ k, SQLite.rows s !! k = SQLite.rows s' !! k) → s = s'.
Proof.
  destruct s, s'. simpl. intros -> H. f_equal. by apply map_eq.
Qed.

(** X9.  [DeleteService] of a key that is not stored and has no key under
    it returns no error and leaves the store as it is (in the SQLite
    backend for a key of literal characters, [SQLite.like_literal], and
    stored keys without upper case letters); a second [DeleteService] of
    the same key changes nothing, whatever the key.  In both backends. *)
Theorem X9_delete_absent_key_is_no_op (key : string) :
  (∀ m order,
     range_of (Memory.services m) order →
     (∀ k, is_Some (Memory.services m !! k) →
           k ≠ key ∧ ¬ ∃ suffix, k = key +:+ "/" +:+ suffix) →
     Memory.DeleteService m order Background key = (m, None))
  ∧ (∀ m order order1,
       range_of (Memory.services m) order →
       let m1 := (Memory.DeleteService m order Background key).1 in
       range_of (Memory.services m1) order1 →
       Memory.DeleteService m1 order1 Background key = (m1, None))
  ∧ (∀ s,
       SQLite.like_literal key = true →
       (∀ k, is_Some (SQLite.rows s !! k) →
             SQLite.lower_case k = true
             ∧ k ≠ key ∧ ¬ ∃ suffix, k = key +:+ "/" +:+ suffix) →
       SQLite.DeleteService s Background key = (s, None))
  ∧ (∀ s,
       let s1 := (SQLite.DeleteService s Background key).1 in
       SQLite.DeleteService s1 Background key = (s1, None)).
Proof.
  assert (Hmem : ∀ m order,
    range_of (Memory.services m) order →
    (∀ k, is_Some (Memory.services m !! k) →
          String.eqb k key || HasPrefix k (key +:+ "/") = false) →
    Memory.DeleteService m order Background key = (m, None)).
  { intros m order Hr Hn.
    assert ((Memory.DeleteService m order Background key).1 = m) as Heq.
    { apply Memory_ext. intros k.
      rewrite Memory_DeleteService_lookup by done.
      destruct (Memory.services m !! k) as [v|] eqn:Hv.
      - by rewrite Hn by (rewrite Hv; eauto).
      - by destruct (_ || _). }
    unfold Memory.DeleteService in *. simpl in *. by rewrite Heq. }
  assert (Hsql : ∀ s,
    (∀ k, is_Some (SQLite.rows s !! k) →
          SQLite.where_DeleteService key k = false) →
    SQLite.DeleteService s Background key = (s, None)).
  { intros s Hn.
    assert ((SQLite.DeleteService s Background key).1 = s) as Heq.
    { apply SQLite_ext; [done|]. intros k.
      rewrite SQLite_DeleteService_lookup.
      destruct (SQLite.rows s !! k) as [row|] eqn:Hv.
      - by rewrite Hn by (rewrite Hv; eauto).
      - by destruct (SQLite.where_DeleteService key k). }
    unfold SQLite.DeleteService in *. simpl in *. by rewrite Heq. }
  split_and!.
  - intros m order Hr Hn. apply Hmem; [done|]. intros k Hk.
    destruct (Hn k Hk) as [H1 H2].
    destruct (String.eqb k key || HasPrefix k (key +:+ "/")) eqn:Ht; [|done].
    apply delete_test_iff in Ht as [?|?]; done.
  - intros m order order1 Hr m1 Hr1. apply Hmem; [done|]. intros k [v Hk].
    unfold m1 in Hk. rewrite Memory_DeleteService_lookup in Hk by done.
    by destruct (String.eqb k key || HasPrefix k (key +:+ "/")).
  - intros s Hlit Hn. apply Hsql. intros k Hk.
    destruct (Hn k Hk) as (Hlow & H1 & H2).
    rewrite where_DeleteService_literal by done.
    destruct (String.eqb k key || HasPrefix k (key +:+ "/")) eqn:Ht; [|done].
    apply delete_test_iff in Ht as [?|?]; done.
  - intros s s1. apply Hsql. intros k [row Hk]. unfold s1 in Hk.
    rewrite SQLite_DeleteService_lookup in Hk.
    by destruct (SQLite.where_DeleteService key k).
Qed.

(** X10.  [SaveService] followed by [DeleteService] of the key of the
    record: the record is gone, and no later [GetServices] returns a record
    with that key.  In both backends. *)
Theorem X10_save_then_delete_removes (service : Service) :
  (∀ m order,
     let m1 := (Memory.SaveService m Background service).1 in
     range_of (Memory.services m1) order →
     let m2 := (Memory.DeleteService m1 order Background (Key service)).1 in
     Memory.services m2 !! Key service = None
     ∧ ∀ order2 prefix r,
         range_of (Memory.services m2) order2 →
         r ∈ (Memory.GetServices m2 order2 Background prefix).1 →
         Key r ≠ Key service)
  ∧ (∀ s now,
       let s1 := (SQLite.SaveService s now Background service).1 in
       let s2 := (SQLite.DeleteService s1 Background (Key service)).1 in
       SQLite.rows s2 !! Key service = None
       ∧ ∀ order2 prefix r,
           range_of (SQLite.rows s2) order2 →
           r ∈ (SQLite.GetServices s2 order2 Background prefix).1 →
           Key r ≠ Key service).
Proof.
  split.
  - intros m order m1 Hr m2.
    assert (Memory.services m2 !! Key service = None) as Hgone.
    { unfold m2. rewrite Memory_DeleteService_lookup by done.
      by rewrite String.eqb_refl. }
    split; [exact Hgone|]. intros order2 prefix r Hr2 Hin.
    apply Memory_GetServices_elem in Hin; [|done].
    destruct Hin as (k & v & Hm & _ & ->). rewrite Key_present. simpl.
    intros ->. congruence.
  - intros s now s1 s2.
    assert (SQLite.rows s2 !! Key service = None) as Hgone.
    { unfold s2. rewrite SQLite_DeleteService_lookup.
      unfold SQLite.where_DeleteService. by rewrite String.eqb_refl. }
    split; [exact Hgone|]. intros order2 prefix r Hr2 Hin.
    apply SQLite_GetServices_elem in Hin; [|done].
    destruct Hin as (k & row & svc & Hm & _ & _ & ->).
    rewrite Key_present. simpl. intros ->. congruence.
Qed.

(** X11.  [DeleteService] of the empty key removes every key that begins
    with a slash: a store whose keys all begin with a slash is empty after
    the call.  In both backends. *)
Theorem X11_delete_empty_key_removes_rooted_keys :
  (∀ m order,
     range_of (Memory.services m) order →
     (∀ k, is_Some (Memory.services m !! k) → HasPrefix k "/" = true) →
     Memory.DeleteService m order Background ""
     = (Memory.NewMemoryBackend, None))
  ∧ (∀ s,
       (∀ k, is_Some (SQLite.rows s !! k) → HasPrefix k "/" = true) →
       SQLite.rows (SQLite.DeleteService s Background "").1 = ∅
       ∧ SQLite.Count (SQLite.DeleteService s Background "").1 = 0).
Proof.
  split.
  - intros m order Hr Hall.
    assert ((Memory.DeleteService m order Background "").1
            = Memory.NewMemoryBackend) as Heq.
    { apply Memory_ext. intros k.
      rewrite Memory_DeleteService_lookup by done.
      unfold Memory.NewMemoryBackend. cbn [Memory.services].
      rewrite lookup_empty, append_nil.
      destruct (Memory.services m !! k) as [v|] eqn:Hv.
      - rewrite (Hall k) by (rewrite Hv; eauto). by rewrite orb_true_r.
      - by destruct (_ || _). }
    unfold Memory.DeleteService in *. simpl in *. by rewrite Heq.
  - intros s Hall.
    assert (SQLite.rows (SQLite.DeleteService s Background "").1 = ∅) as Heq.
    { apply map_eq. intros k. rewrite SQLite_DeleteService_lookup.
      rewrite lookup_empty.
      destruct (SQLite.rows s !! k) as [row|] eqn:Hv.
      - rewrite where_DeleteService_test; [done|done|].
        rewrite append_nil, (Hall k) by (rewrite Hv; eauto).
        apply orb_true_r.
      - by destruct (SQLite.where_DeleteService "" k). }
    split; [exact Heq|]. unfold SQLite.Count. rewrite Heq.
    apply map_size_empty.
Qed.

(** ** Sequences of saves *)

Lemma Memory_save_all_spec (l : list Service) : ∀ m,
  NoDup (Key <$> l) →
  (∀ k, k ∉ Key <$> l →
        Memory.services (Memory.save_all m l) !! k = Memory.services m !! k)
  ∧ (∀ service, service ∈ l → Memory_saved (Memory.save_all m l) service)
  ∧ ((∀ service, service ∈ l → Memory.services m !! Key service = None) →
       Memory.Count (Memory.save_all m l) = Memory.Count m + length l).
Proof.
  induction l as [|a l IH]; intros m Hnd.
  { split_and!; [done| |intros _; simpl; lia].
    intros service Hin. by apply elem_of_nil in Hin. }
  rewrite fmap_cons in Hnd. apply NoDup_cons in Hnd as [Ha Hnd].
  unfold Memory.save_all. cbn [foldl].
  fold (Memory.save_all (Memory.SaveService m Background a).1 l).
  destruct (IH (Memory.SaveService m Background a).1 Hnd)
    as (Hother & Hsaved & Hcount).
  split_and!.
  - intros k Hk. rewrite fmap_cons, not_elem_of_cons in Hk.
    destruct Hk as [Hne Hk]. rewrite Hother by done. simpl.
    by rewrite lookup_insert_ne.
  - intros service [->|Hin]%elem_of_cons; [|by apply Hsaved].
    unfold Memory_saved. rewrite Hother by done.
    apply Memory_SaveService_saved.
  - intros Hfresh. rewrite Hcount.
    + unfold Memory.Count. simpl.
      rewrite map_size_insert_None by (apply Hfresh; left). lia.
    + intros service Hin. simpl. rewrite lookup_insert_ne.
      * apply Hfresh. by right.
      * intros Heq. apply Ha. rewrite Heq. by apply list_elem_of_fmap_2.
Qed.

Lemma SQLite_save_all_spec (l : list (Z * Service)) : ∀ s,
  NoDup (Key <$> l.*2) →
  (∀ k, k ∉ Key <$> l.*2 →
        SQLite.rows (SQLite.save_all s l) !! k = SQLite.rows s !! k)
  ∧ (∀ service, service ∈ l.*2 → SQLite_saved (SQLite.save_all s l) service)
  ∧ ((∀ service, service ∈ l.*2 → SQLite.rows s !! Key service = None) →
       SQLite.Count (SQLite.save_all s l) = SQLite.Count s + length l).
Proof.
  induction l as [|[now a] l IH]; intros s Hnd.
  { split_and!; [done| |intros _; simpl; lia].
    intros service Hin. by apply elem_of_nil in Hin. }
  rewrite !fmap_cons in Hnd. apply NoDup_cons in Hnd as [Ha Hnd].
  unfold SQLite.save_all. cbn [foldl fst snd].
  fold (SQLite.save_all (SQLite.SaveService s now Background a).1 l).
  destruct (IH (SQLite.SaveService s now Background a).1 Hnd)
    as (Hother & Hsaved & Hcount).
  split_and!.
  - intros k Hk. rewrite !fmap_cons, not_elem_of_cons in Hk.
    destruct Hk as [Hne Hk]. rewrite Hother by done. simpl.
    by rewrite upsert_lookup_ne.
  - intros service Hin. rewrite fmap_cons in Hin.
    apply elem_of_cons in Hin as [->|Hin]; [|by apply Hsaved].
    destruct (SQLite_SaveService_saved s now a) as (row & Hrow & Hv).
    exists row. split; [|done]. by rewrite Hother.
  - intros Hfresh. rewrite Hcount.
    + unfold SQLite.Count. simpl. unfold SQLite.upsert.
      rewrite (Hfresh a) by (rewrite fmap_cons; left).
      rewrite map_size_insert_None by (apply Hfresh; rewrite fmap_cons; left).
      simpl. lia.
    + intros service Hin. simpl. rewrite upsert_lookup_ne.
      * apply Hfresh. rewrite fmap_cons. by right.
      * intros Heq. apply Ha. simpl. rewrite <- Heq.
        by apply list_elem_of_fmap_2.
Qed.

(** X12.  Saving records with pairwise distinct keys, one call after the
    other on a new backend, stores them all: the count is the number of
    records and each record is held as it was saved.  In both backends. *)
Theorem X12_saves_of_distinct_keys_all_stored :
  (∀ l : list Service,
     NoDup (Key <$> l) →
     Memory.Count (Memory.save_all Memory.NewMemoryBackend l) = length l
     ∧ ∀ service, service ∈ l →
         Memory_saved (Memory.save_all Memory.NewMemoryBackend l) service)
  ∧ (∀ (l : list (Z * Service)) path,
       NoDup (Key <$> l.*2) →
       let s0 := {| SQLite.rows := ∅; SQLite.path := path |} in
       SQLite.Count (SQLite.save_all s0 l) = length l
       ∧ ∀ service, service ∈ l.*2 →
           SQLite_saved (SQLite.save_all s0 l) service).
Proof.
  split.
  - intros l Hnd.
    destruct (Memory_save_all_spec l Memory.NewMemoryBackend Hnd)
      as (_ & Hsaved & Hcount).
    split; [|exact Hsaved]. rewrite Hcount; [done|].
    intros service _. apply lookup_empty.
  - intros l path Hnd s0.
    destruct (SQLite_save_all_spec l s0 Hnd) as (_ & Hsaved & Hcount).
    split; [|exact Hsaved]. rewrite Hcount; [done|].
    intros service _. apply lookup_empty.
Qed.

(** ** Matching in the SQLite backend *)

(** X13.  When the prefix or key given to the SQLite backend is of ASCII
    bytes other than NUL, with no [%], no [_] and no upper case letter
    ([SQLite.like_literal]), and the stored keys have no upper case
    letter, the backend matches literally: [GetServices] returns the
    records whose key begins with the prefix, and [DeleteService] removes
    the key and the keys under it and no other. *)
Theorem X13_sqlite_matches_literally_on_plain_keys
    (s : SQLite.SQLiteBackend) (p : string) :
  SQLite.like_literal p = true →
  (∀ k, is_Some (SQLite.rows s !! k) → SQLite.lower_case k = true) →
  (∀ order r,
     range_of (SQLite.rows s) order →
     r ∈ (SQLite.GetServices s order Background p).1
     ↔ ∃ k row svc, SQLite.rows s !! k = Some row
          ∧ SQLite.json_Unmarshal (SQLite.value row) = Some svc
          ∧ HasPrefix k p = true ∧ r = present (k, svc))
  ∧ (∀ k, SQLite.rows (SQLite.DeleteService s Background p).1 !! k
          = if String.eqb k p || HasPrefix k (p +:+ "/") then None
            else SQLite.rows s !! k).
Proof.
  intros Hp Hlow. split.
  - intros order r Hr. by apply SQLite_GetServices_literal.
  - intros k. by apply SQLite_DeleteService_literal.
Qed.

(** X14.  [keyMatchesPrefix] matches whole path components: it holds of a
    key and a prefix exactly when the key is the prefix or the prefix
    followed by a slash and a suffix. *)
Theorem X14_keyMatchesPrefix_whole_components (key prefix : string) :
  SQLite.keyMatchesPrefix key prefix = true
  ↔ key = prefix ∨ ∃ suffix, key = prefix +:+ "/" +:+ suffix.
Proof. rewrite keyMatchesPrefix_delete_test. apply delete_test_iff. Qed.

(** ** The two backends side by side *)

Lemma present_key_cleared (k : string) (svc : Service) :
  present (k, with_Key "" svc) = present (k, svc).
Proof. done. Qed.

Lemma backends_agree_lookup m s k v :
  backends_agree m s →
  Memory.services m !! k = Some v
  ↔ ∃ row svc, SQLite.rows s !! k = Some row
       ∧ SQLite.json_Unmarshal (SQLite.value row) = Some svc
       ∧ v = with_Key "" svc.
Proof.
  intros Ha. rewrite (Ha k). split.
  - intros H. destruct (SQLite.rows s !! k) as [row|]; [|done].
    simpl in H.
    destruct (SQLite.json_Unmarshal (SQLite.value row)) as [svc|] eqn:Hd;
      [|done].
    simpl in H. injection H as <-. by exists row, svc.
  - intros (row & svc & -> & Hd & ->). simpl. by rewrite Hd.
Qed.

(** X15.  The two backends are interchangeable on plain keys.  New backends
    hold the same records; the same [SaveService] on both keeps them in
    agreement when the strings of the record are valid UTF-8; so does the
    same [DeleteService], and the same [GetServices] returns the same
    records from both, when the key or prefix is of ASCII bytes other than
    NUL, with no [%], no [_] and no upper case letter
    ([SQLite.like_literal]), and the stored keys have no upper case
    letter. *)
Theorem X15_backends_interchangeable_on_plain_keys
    (m : Memory.MemoryBackend) (s : SQLite.SQLiteBackend) :
  backends_agree m s →
  (∀ k, is_Some (SQLite.rows s !! k) → SQLite.lower_case k = true) →
  (∀ path, backends_agree Memory.NewMemoryBackend
             {| SQLite.rows := ∅; SQLite.path := path |})
  ∧ (∀ service now,
       utf8_fields service = true →
       backends_agree (Memory.SaveService m Background service).1
                      (SQLite.SaveService s now Background service).1)
  ∧ (∀ key order,
       SQLite.like_literal key = true →
       range_of (Memory.services m) order →
       backends_agree (Memory.DeleteService m order Background key).1
                      (SQLite.DeleteService s Background key).1)
  ∧ (∀ prefix order_m order_s r,
       SQLite.like_literal prefix = true →
       range_of (Memory.services m) order_m →
       range_of (SQLite.rows s) order_s →
       r ∈ (Memory.GetServices m order_m Background prefix).1
       ↔ r ∈ (SQLite.GetServices s order_s Background prefix).1).
Proof.
  intros Ha Hlow. split_and!.
  - intros path k. simpl. by rewrite !lookup_empty.
  - intros service now Hutf k. simpl.
    destruct (decide (k = Key service)) as [->|Hk].
    + rewrite lookup_insert_eq.
      destruct (upsert_lookup_eq now (Key service)
                  (SQLite.json_Marshal service) (SQLite.rows s))
        as (row & -> & Hv & _).
      simpl. rewrite Hv. simpl. f_equal.
      by apply json_roundtrip_key_cleared.
    + rewrite lookup_insert_ne, upsert_lookup_ne by done. apply Ha.
  - intros key order Hkey Hr k.
    rewrite Memory_DeleteService_lookup by done.
    rewrite SQLite_DeleteService_literal by done.
    destruct (String.eqb k key || HasPrefix k (key +:+ "/")); [done|].
    apply Ha.
  - intros prefix order_m order_s r Hp Hrm Hrs.
    rewrite Memory_GetServices_elem by done.
    rewrite SQLite_GetServices_literal by done. split.
    + intros (k & v & Hm & Hpre & ->).
      apply (backends_agree_lookup m s k v Ha) in Hm
        as (row & svc & Hrow & Hd & ->).
      exists k, row, svc. by rewrite present_key_cleared.
    + intros (k & row & svc & Hrow & Hd & Hpre & ->).
      exists k, (with_Key "" svc). split_and!; [|done|done].
      apply (backends_agree_lookup m s k _ Ha). by exists row, svc.
Qed.

(** ** Diagnostic operations of the SQLite backend *)

(** X16.  [Keys] of the SQLite backend lists every stored key once, in
    increasing order, and [Count] reports their number; both return the
    error of a context that is already done, with no key and the count 0.
    When an in-memory backend stores the same keys, its [Keys] returns the
    same list. *)
Theorem X16_SQLite_Keys_and_Count (s : SQLite.SQLiteBackend)
    (order : list (string * SQLite.Row)) :
  range_of (SQLite.rows s) order →
  let keys := (SQLite.Keys s order Background).1 in
  StronglySorted String.le keys
  ∧ NoDup keys
  ∧ (∀ k, k ∈ keys ↔ is_Some (SQLite.rows s !! k))
  ∧ (SQLite.Keys s order Background).2 = None
  ∧ SQLite.CountContext s Background = (Z.of_nat (length keys), None)
  ∧ (∀ ctx e, ctx_Err ctx = Some e →
       SQLite.Keys s order ctx = ([], Some e)
       ∧ SQLite.CountContext s ctx = (0%Z, Some e))
  ∧ (∀ m order_m,
       range_of (Memory.services m) order_m →
       (∀ k, is_Some (Memory.services m !! k)
             ↔ is_Some (SQLite.rows s !! k)) →
       Memory.Keys m order_m = keys).
Proof.
  intros Hr keys. unfold keys, SQLite.Keys, SQLite.CountContext. simpl.
  rewrite foldl_snoc. simpl.
  assert (Hp : merge_sort String.le order.*1 ≡ₚ order.*1)
    by apply merge_sort_Permutation.
  split_and!.
  - apply StronglySorted_merge_sort; apply _.
  - rewrite Hp. by eapply range_of_NoDup.
  - intros k. rewrite Hp. by apply range_of_keys.
  - done.
  - rewrite Hp, length_fmap. by rewrite (range_of_length _ _ Hr).
  - intros ctx e He. by rewrite He.
  - intros m order_m Hrm Hdom. unfold Memory.Keys, Memory.sort_Strings.
    rewrite foldl_snoc. simpl. apply sorted_keys_unique.
    apply NoDup_Permutation.
    + by eapply range_of_NoDup.
    + by eapply range_of_NoDup.
    + intros k. rewrite (range_of_keys _ _ k Hrm), (range_of_keys _ _ k Hr).
      apply Hdom.
Qed.

(** ** The backend selector *)

Lemma GetBackendType_of_lower (p : Selector.Platform) :
  Selector.GetBackendType p
  = let l := ToLower (Selector.mapRunes p)
               (Selector.Getenv p "COREDNS_BACKEND") in
    if String.eqb l "sqlite" || String.eqb l "sqlite3"
    then Selector.BackendTypeSQLite
    else if String.eqb l "memory" || String.eqb l "mem"
            || String.eqb l "inmemory" || String.eqb l "in-memory"
    then Selector.BackendTypeMemory
    else if String.eqb l "etcd" || String.eqb l ""
    then Selector.BackendTypeEtcd
    else l.
Proof. reflexivity. Qed.

Lemma mapBytes_lowerByte_empty (v : string) :
  mapBytes lowerByte v = "" ↔ v = "".
Proof. destruct v; simpl; split; congruence. Qed.

Lemma elem_of_two (x a b : string) : x ∈ [a; b] ↔ x = a ∨ x = b.
Proof. rewrite !elem_of_cons, elem_of_nil. tauto. Qed.

(** X17.  [GetBackendType] recognises the aliases in any case of their
    letters: a value that lower-cases to [sqlite] or [sqlite3] gives
    [sqlite]; to [memory], [mem], [inmemory] or [in-memory] gives
    [memory]; to [etcd], or the empty or unset value, gives [etcd]. *)
Theorem X17_GetBackendType_aliases_in_any_case (p : Selector.Platform) :
  let v := Selector.Getenv p "COREDNS_BACKEND" in
  let l := mapBytes lowerByte v in
  allBytes isASCIIByte v = true →
  (l ∈ ["sqlite"; "sqlite3"] →
     Selector.GetBackendType p = Selector.BackendTypeSQLite)
  ∧ (l ∈ ["memory"; "mem"; "inmemory"; "in-memory"] →
       Selector.GetBackendType p = Selector.BackendTypeMemory)
  ∧ (l = "etcd" ∨ v = "" →
       Selector.GetBackendType p = Selector.BackendTypeEtcd).
Proof.
  intros v l Ha. rewrite GetBackendType_of_lower.
  rewrite (ToLower_ASCII _ _ Ha). fold v. fold l. simpl. split_and!.
  - intros Hin. repeat (apply elem_of_cons in Hin as [->|Hin]; [done|]).
    by apply elem_of_nil in Hin.
  - intros Hin. repeat (apply elem_of_cons in Hin as [->|Hin]; [done|]).
    by apply elem_of_nil in Hin.
  - intros [->|Hv]; [done|].
    assert (l = "") as -> by (unfold l; by apply mapBytes_lowerByte_empty).
    done.
Qed.

Lemma lowerByte_idemp (c : ascii) : lowerByte (lowerByte c) = lowerByte c.
Proof. destruct c as [[] [] [] [] [] [] [] []]; reflexivity. Qed.

Lemma mapBytes_lowerByte_idemp (s : string) :
  mapBytes lowerByte (mapBytes lowerByte s) = mapBytes lowerByte s.
Proof.
  induction s as [|c s IH]; [done|]. simpl. by rewrite lowerByte_idemp, IH.
Qed.

(** X18.  [GetBackendType] does not depend on the case of the ASCII
    letters of the value: two values of ASCII bytes that differ in case
    only give the same type, and the type returned has no upper case
    letter. *)
Theorem X18_GetBackendType_ignores_case (p p' : Selector.Platform) :
  let v := Selector.Getenv p "COREDNS_BACKEND" in
  let v' := Selector.Getenv p' "COREDNS_BACKEND" in
  allBytes isASCIIByte v = true →
  allBytes isASCIIByte v' = true →
  mapBytes lowerByte v = mapBytes lowerByte v' →
  Selector.GetBackendType p = Selector.GetBackendType p'
  ∧ mapBytes lowerByte (Selector.GetBackendType p)
    = Selector.GetBackendType p.
Proof.
  intros v v' Ha Ha' Heq. rewrite !GetBackendType_of_lower.
  rewrite (ToLower_ASCII _ _ Ha), (ToLower_ASCII _ _ Ha').
  fold v v'. rewrite <- Heq. split; [done|]. simpl.
  repeat match goal with
  | |- context [if ?b then _ else _] => destruct b; [reflexivity|]
  end.
  apply mapBytes_lowerByte_idemp.
Qed.

(** X19.  With no configuration given, a value of the variable that is
    not empty and is no alias makes [NewBackend] return the nil backend and
    [ErrUnknownBackend]. *)
Theorem X19_NewBackend_rejects_unknown_environment (p : Selector.Platform) :
  let l := ToLower (Selector.mapRunes p)
             (Selector.Getenv p "COREDNS_BACKEND") in
  l ≠ "" → Selector.recognized_alias l = false →
  Selector.NewBackend p None = (None, Some ErrUnknownBackend).
Proof.
  intros l Hne Hrec. unfold Selector.NewBackend. simpl.
  rewrite (GetBackendType_unrecognized p Hne Hrec). fold l.
  unfold Selector.recognized_alias in Hrec.
  apply bool_decide_eq_false in Hrec.
  assert (∀ a, a ∈ ["etcd"; "sqlite"; "sqlite3"; "memory"; "mem";
                    "inmemory"; "in-memory"] → String.eqb l a = false)
    as Hno.
  { intros a Ha. apply String.eqb_neq. intros ->. by apply Hrec. }
  unfold Selector.BackendTypeEtcd, Selector.BackendTypeSQLite,
    Selector.BackendTypeMemory.
  rewrite !Hno; [done|set_solver..].
Qed.

(** X20.  With no configuration given and the variable set to an alias of
    [sqlite] in any case, [NewBackend] builds the SQLite backend at the
    path of the variable [COREDNS_SQLITE_PATH], taken as it is, or at the
    default path when that variable is empty or unset. *)
Theorem X20_NewBackend_sqlite_from_environment (p : Selector.Platform) :
  let v := Selector.Getenv p "COREDNS_BACKEND" in
  let path := Selector.Getenv p "COREDNS_SQLITE_PATH" in
  allBytes isASCIIByte v = true →
  mapBytes lowerByte v ∈ ["sqlite"; "sqlite3"] →
  let built :=
    Selector.NewSQLiteBackend p
      (if String.eqb path "" then "/var/lib/external-dns/coredns.db"
       else path) in
  Selector.NewBackend p None
  = (Some (Selector.SQLitePointer built.1), built.2)
  ∧ (∀ b, built.1 = Some b →
       SQLite.Path b = if String.eqb path ""
                       then "/var/lib/external-dns/coredns.db" else path).
Proof.
  intros v path Ha Hin built.
  assert (Selector.GetBackendType p = Selector.BackendTypeSQLite) as Ht.
  { rewrite GetBackendType_of_lower, (ToLower_ASCII _ _ Ha). fold v. simpl.
    repeat (apply elem_of_cons in Hin as [->|Hin]; [done|]).
    by apply elem_of_nil in Hin. }
  split.
  - unfold Selector.NewBackend. simpl. rewrite Ht. simpl. fold path.
    fold built. by destruct built.
  - intros b Hb. unfold SQLite.Path.
    by apply (NewSQLiteBackend_result p _).
Qed.

(** X21.  [NewSQLiteBackend]: the path [:memory:] needs no directory, the
    construction succeeds whenever the database opens and takes the schema;
    for any other path a failure to create the directory of the path is
    returned and nothing is opened; an instance is returned exactly when
    no error is, and it reports the path it was given. *)
Theorem X21_NewSQLiteBackend_outcomes (p : Selector.Platform)
    (path : string) :
  (∀ table,
     Selector.sql_Open p "sqlite" ":memory:" = None →
     Selector.db_Exec p ":memory:" Selector.sqliteSchema = inl table →
     Selector.NewSQLiteBackend p ":memory:"
     = (Some {| SQLite.rows := table; SQLite.path := ":memory:" |}, None))
  ∧ (∀ msg,
       path ≠ ":memory:" →
       Selector.os_MkdirAll p (Selector.filepath_Dir p path) = Some msg →
       Selector.NewSQLiteBackend p path = (None, Some (OtherError msg)))
  ∧ ((Selector.NewSQLiteBackend p path).2 = None
     ↔ is_Some (Selector.NewSQLiteBackend p path).1)
  ∧ (∀ b, (Selector.NewSQLiteBackend p path).1 = Some b →
          SQLite.Path b = path).
Proof.
  split_and!.
  - intros table Ho He. unfold Selector.NewSQLiteBackend. simpl.
    by rewrite Ho, He.
  - intros msg Hne Hm. unfold Selector.NewSQLiteBackend.
    apply String.eqb_neq in Hne. rewrite Hne. simpl. by rewrite Hm.
  - apply (NewSQLiteBackend_result p path).
  - apply (NewSQLiteBackend_result p path).
Qed.

(** * The further properties on the scenarios *)

Lemma X1_witness :
  Memory.Keys Scenario.memory0
    (reverse (map_to_list (Memory.services Scenario.memory0)))
  = Memory.Keys Scenario.memory0
      (map_to_list (Memory.services Scenario.memory0)).
Proof.
  apply (X1_Memory_Keys_sorted Scenario.memory0).
  - unfold range_of. reflexivity.
  - unfold range_of. apply reverse_Permutation.
Defined.

Lemma X2_witness :
  Memory.Snapshot Scenario.memory0
    (map_to_list (Memory.services Scenario.memory0))
  = Memory.services Scenario.memory0.
Proof.
  apply (X2_Memory_Snapshot_is_the_map Scenario.memory0).
  unfold range_of. reflexivity.
Defined.

Lemma X3_witness :
  let m' := (Memory.SaveService Memory.NewMemoryBackend Background
               Scenario.sip).1 in
  let s' := (SQLite.SaveService Scenario.sqlite0 102 Background
               Scenario.sip).1 in
  defaultPriority Scenario.sip
  ∈ (Memory.GetServices m' (map_to_list (Memory.services m')) Background
       "/skydns/com").1
  ∧ defaultPriority Scenario.sip
    ∈ (SQLite.GetServices s' (map_to_list (SQLite.rows s')) Background
         "/skydns/com").1.
Proof.
  intros m' s'.
  destruct (X3_save_then_get_round_trip Scenario.sip "/skydns/com" eq_refl)
    as [Hm Hs].
  split.
  - apply (Hm Memory.NewMemoryBackend). unfold range_of. reflexivity.
  - destruct (Hs Scenario.sqlite0 102%Z (map_to_list (SQLite.rows s')))
      as (Hin & _ & Heq).
    + unfold range_of. reflexivity.
    + rewrite <- (Heq eq_refl). apply Hin. reflexivity.
Defined.

Lemma X4_witness :
  let s' := (SQLite.SaveService Scenario.sqlite0 102 Background
               Scenario.sip_copy).1 in
  Memory.services
    (Memory.SaveService Scenario.memory0 Background Scenario.sip_copy).1
    !! Key Scenario.sip
  = Memory.services Scenario.memory0 !! Key Scenario.sip
  ∧ (defaultPriority Scenario.web
     ∈ (SQLite.GetServices s' (map_to_list (SQLite.rows s')) Background
          "/skydns").1
     ↔ defaultPriority Scenario.web
       ∈ (SQLite.GetServices Scenario.sqlite0
            (map_to_list (SQLite.rows Scenario.sqlite0)) Background
            "/skydns").1).
Proof.
  intros s'.
  destruct (X4_save_changes_one_key Scenario.sip_copy)
    as (Hm & _ & _ & _ & _ & Hs).
  split.
  - apply Hm. vm_compute. discriminate.
  - apply (Hs Scenario.sqlite0 102%Z).
    + unfold range_of. reflexivity.
    + unfold range_of. reflexivity.
    + vm_compute. discriminate.
Defined.

Lemma X5_witness :
  NoDup (Key <$> (Memory.GetServices Scenario.memory0
                    (map_to_list (Memory.services Scenario.memory0))
                    Background "/skydns").1).
Proof.
  apply (proj1 (X5_get_result_invariants "/skydns") Scenario.memory0).
  unfold range_of. reflexivity.
Defined.

Lemma X6_witness :
  length (Memory.GetServices Scenario.memory0
            (map_to_list (Memory.services Scenario.memory0))
            Background "").1
  = Memory.Count Scenario.memory0.
Proof.
  apply (proj1 X6_get_empty_prefix_returns_all Scenario.memory0).
  unfold range_of. reflexivity.
Defined.

Lemma X7_witness :
  Memory.GetServices Scenario.memory0
    (map_to_list (Memory.services Scenario.memory0)) Background "/other"
  = ([], None)
  ∧ SQLite.GetServices Scenario.sqlite0
      (map_to_list (SQLite.rows Scenario.sqlite0)) Background "/other"
    = ([], None).
Proof.
  destruct (X7_get_without_match_is_empty "/other") as [Hm Hs]. split.
  - apply (Hm Scenario.memory0).
    + unfold range_of. reflexivity.
    + intros k Hk. stored_key Hk; reflexivity.
  - apply (Hs Scenario.sqlite0).
    + unfold range_of. reflexivity.
    + reflexivity.
    + intros k Hk. stored_key Hk; split; reflexivity.
Defined.

Lemma X8_witness :
  (SQLite.GetServices Scenario.sqlite_damaged
     (map_to_list (SQLite.rows Scenario.sqlite_damaged))
     Background "/skydns").2 = None
  ∧ present (Key Scenario.sip, Scenario.sip)
    ∈ (SQLite.GetServices Scenario.sqlite_damaged
         (map_to_list (SQLite.rows Scenario.sqlite_damaged))
         Background "/skydns").1.
Proof.
  destruct (X8_sqlite_get_skips_malformed_rows
    Scenario.sqlite_damaged
    (map_to_list (SQLite.rows Scenario.sqlite_damaged))
    "/skydns" "/skydns/com/example/bad"
    {| SQLite.value := SQLite.Malformed "{";
       SQLite.created_at := 102; SQLite.updated_at := 102 |})
    as (Herr & _ & Hvalid).
  - unfold range_of. reflexivity.
  - vm_compute. reflexivity.
  - reflexivity.
  - split; [exact Herr|].
    apply (Hvalid (Key Scenario.sip)
             {| SQLite.value := SQLite.Document Scenario.sip;
                SQLite.created_at := 100; SQLite.updated_at := 100 |}).
    + vm_compute. reflexivity.
    + reflexivity.
    + reflexivity.
    + reflexivity.
Defined.

Lemma X9_witness :
  let m1 := (Memory.DeleteService Scenario.memory0
               (map_to_list (Memory.services Scenario.memory0))
               Background Scenario.tcp_key).1 in
  Memory.DeleteService m1 (map_to_list (Memory.services m1)) Background
    Scenario.tcp_key
  = (m1, None)
  ∧ SQLite.DeleteService Scenario.sqlite0 Background "/skydns/com/ex"
    = (Scenario.sqlite0, None).
Proof.
  intros m1. split.
  - apply (proj1 (proj2 (X9_delete_absent_key_is_no_op Scenario.tcp_key))
             Scenario.memory0
             (map_to_list (Memory.services Scenario.memory0))).
    + unfold range_of. reflexivity.
    + unfold range_of. reflexivity.
  - apply (proj1 (proj2 (proj2
             (X9_delete_absent_key_is_no_op "/skydns/com/ex")))
             Scenario.sqlite0).
    + reflexivity.
    + intros k Hk. stored_key Hk.
      * split; [reflexivity|]. split; [discriminate|].
        intros [suffix E]. vm_compute in E. discriminate E.
      * split; [reflexivity|]. split; [discriminate|].
        intros [suffix E]. vm_compute in E. discriminate E.
Defined.

Lemma X10_witness :
  let m1 := (Memory.SaveService Scenario.memory0 Background
               Scenario.sip_copy).1 in
  Memory.services
    (Memory.DeleteService m1 (map_to_list (Memory.services m1)) Background
       (Key Scenario.sip_copy)).1
    !! Key Scenario.sip_copy
  = None.
Proof.
  intros m1.
  apply (proj1 (X10_save_then_delete_removes Scenario.sip_copy)
           Scenario.memory0).
  unfold range_of. reflexivity.
Defined.

Lemma X11_witness :
  Memory.DeleteService Scenario.memory0
    (map_to_list (Memory.services Scenario.memory0)) Background ""
  = (Memory.NewMemoryBackend, None).
Proof.
  apply (proj1 X11_delete_empty_key_removes_rooted_keys Scenario.memory0).
  - unfold range_of. reflexivity.
  - intros k Hk. stored_key Hk; reflexivity.
Defined.

Lemma X12_witness :
  Memory.Count
    (Memory.save_all Memory.NewMemoryBackend [Scenario.sip; Scenario.web])
  = 2.
Proof.
  apply (proj1 X12_saves_of_distinct_keys_all_stored
           [Scenario.sip; Scenario.web]).
  apply (bool_decide_unpack _). vm_compute. exact I.
Defined.

Lemma X13_witness :
  SQLite.rows
    (SQLite.DeleteService Scenario.sqlite0 Background
       "/skydns/com/example/xtcp").1
    !! Key Scenario.sip
  = SQLite.rows Scenario.sqlite0 !! Key Scenario.sip.
Proof.
  refine (proj2 (X13_sqlite_matches_literally_on_plain_keys
    Scenario.sqlite0 "/skydns/com/example/xtcp" _ _) (Key Scenario.sip)).
  - reflexivity.
  - intros k Hk. stored_key Hk; reflexivity.
Defined.

Lemma X15_witness :
  defaultPriority Scenario.sip
  ∈ (Memory.GetServices Scenario.memory0
       (map_to_list (Memory.services Scenario.memory0))
       Background "/skydns/com").1
  ↔ defaultPriority Scenario.sip
    ∈ (SQLite.GetServices Scenario.sqlite0
         (map_to_list (SQLite.rows Scenario.sqlite0))
         Background "/skydns/com").1.
Proof.
  pose (r := defaultPriority Scenario.sip).
  assert (backends_agree Memory.NewMemoryBackend
            {| SQLite.rows := ∅; SQLite.path := ":memory:" |}) as A0
    by (intros k; simpl; by rewrite !lookup_empty).
  assert (A1 := proj1 (proj2
    (X15_backends_interchangeable_on_plain_keys _ _ A0
       (λ k Hk, match is_Some_None (eq_ind _ _ Hk _ (lookup_empty k))
                with end))) Scenario.sip 100%Z eq_refl).
  assert (A2 := proj1 (proj2
    (X15_backends_interchangeable_on_plain_keys _ _ A1
       ltac:(intros k Hk; stored_key Hk; reflexivity)))
    Scenario.web 101%Z eq_refl).
  assert (backends_agree Scenario.memory0 Scenario.sqlite0) as Ha
    by exact A2.
  refine (proj2 (proj2 (proj2 (X15_backends_interchangeable_on_plain_keys
    Scenario.memory0 Scenario.sqlite0 Ha _))) "/skydns/com" _ _ r _ _ _).
  - intros k Hk. stored_key Hk; reflexivity.
  - reflexivity.
  - unfold range_of. reflexivity.
  - unfold range_of. reflexivity.
Defined.

Lemma X16_witness :
  (SQLite.Keys Scenario.sqlite0
     (map_to_list (SQLite.rows Scenario.sqlite0)) CanceledCtx
   = ([], Some Canceled))
  ∧ Memory.Keys Scenario.memory0
      (map_to_list (Memory.services Scenario.memory0))
    = (SQLite.Keys Scenario.sqlite0
         (map_to_list (SQLite.rows Scenario.sqlite0)) Background).1.
Proof.
  destruct (X16_SQLite_Keys_and_Count Scenario.sqlite0
              (map_to_list (SQLite.rows Scenario.sqlite0)))
    as (_ & _ & _ & _ & _ & Hc & Hm).
  { unfold range_of. reflexivity. }
  split.
  - apply (Hc CanceledCtx Canceled eq_refl).
  - apply Hm.
    + unfold range_of. reflexivity.
    + intros k. split; intros Hk; stored_key Hk; eexists; vm_compute;
        reflexivity.
Defined.

Lemma X17_witness :
  Selector.GetBackendType (Scenario.readonly_host "SQLite3" "")
  = Selector.BackendTypeSQLite.
Proof.
  refine (proj1 (X17_GetBackendType_aliases_in_any_case
                   (Scenario.readonly_host "SQLite3" "") _) _).
  - reflexivity.
  - apply (bool_decide_unpack _). vm_compute. exact I.
Defined.

Lemma X18_witness :
  Selector.GetBackendType (Scenario.readonly_host "MeMoRy" "")
  = Selector.GetBackendType (Scenario.readonly_host "memory" "").
Proof.
  apply (X18_GetBackendType_ignores_case
           (Scenario.readonly_host "MeMoRy" "")
           (Scenario.readonly_host "memory" "")); reflexivity.
Defined.

Lemma X19_witness :
  Selector.NewBackend (Scenario.readonly_host "Consul" "") None
  = (None, Some ErrUnknownBackend).
Proof.
  apply (X19_NewBackend_rejects_unknown_environment
           (Scenario.readonly_host "Consul" "")).
  - vm_compute. discriminate.
  - reflexivity.
Defined.

Lemma X20_witness :
  Selector.NewBackend (Scenario.readonly_host "SQLITE" "/data/dns.db") None
  = (Some (Selector.SQLitePointer
             (Selector.NewSQLiteBackend
                (Scenario.readonly_host "SQLITE" "/data/dns.db")
                "/data/dns.db").1),
     (Selector.NewSQLiteBackend
        (Scenario.readonly_host "SQLITE" "/data/dns.db")
        "/data/dns.db").2).
Proof.
  refine (proj1 (X20_NewBackend_sqlite_from_environment
                   (Scenario.readonly_host "SQLITE" "/data/dns.db") _ _)).
  - reflexivity.
  - apply (bool_decide_unpack _). vm_compute. exact I.
Defined.

Lemma X21_witness :
  Selector.NewSQLiteBackend (Scenario.readonly_host "" "") "/data/dns.db"
  = (None,
     Some (OtherError "mkdir /var/lib/external-dns: permission denied")).
Proof.
  refine (proj1 (proj2 (X21_NewSQLiteBackend_outcomes
                          (Scenario.readonly_host "" "") "/data/dns.db"))
            _ _ _).
  - discriminate.
  - reflexivity.
Defined.
